(** * ActsExamples::VariableSizeMeasurement

    A shallow embedding of [Examples/Framework/include/ActsExamples/EventData/
    Measurement.hpp]: the variable-size measurement, its zero-copy views over
    the fixed-capacity parameter and covariance buffers, the expansion into the
    full parameter space, and the construction helper. *)

From Stdlib Require Import ZArith QArith.QArith_base.
From stdpp Require Import base list.

(** ** What the template is instantiated with *)

(** Everything the class template takes from its template argument
    [indices_t], from the headers it includes and from the build:
    - [Scalar] is [Acts::ActsScalar] and [zero] its value 0; the class only
      stores and copies scalars, it never computes with them;
    - [SourceLink] is the opaque [Acts::SourceLink];
    - [kFullSize] is [Acts::detail::kParametersSize<indices_t>];
    - [indices_is_BoundIndices] is
      [std::is_same_v<indices_t, Acts::BoundIndices>];
    - [kInvalidIndex] is the value every slot of
      [Acts::kBoundSubspaceIndicesInvalid] holds. *)
Class Instantiation := {
  Scalar : Type;
  zero : Scalar;
  SourceLink : Type;
  kFullSize : nat;
  indices_is_BoundIndices : bool;
  kInvalidIndex : Z
}.

(** How the program is built: [NDEBUG] tells whether [assert] (and with it
    [eigen_assert] and [BOOST_ASSERT]) is compiled out. *)
Class Build := {
  NDEBUG : bool
}.

(** ** Ways an evaluation can end without a value *)

(** The three [static_assert]s of the constructor, and the one Eigen makes on
    the types of the two sides of an assignment
    ([YOU_MIXED_MATRICES_OF_DIFFERENT_SIZES]). *)
Inductive static_check :=
  | ParameterSizeMismatch
  | CovarianceRowsMismatch
  | CovarianceColsMismatch
  | MixedMatrixSizes.

Inductive failure :=
  | StaticAssertion (c : static_check)
      (* a [static_assert] fails: the program is rejected when it is built *)
  | ConstraintNotSatisfied
      (* a [requires] clause is false: the member is not callable *)
  | AssertionFailure
      (* an assertion fires at run time and the process aborts *)
  | CapacityExceeded
      (* [static_vector] is asked to grow beyond its capacity and throws *)
  | UndefinedBehaviour.
      (* an access outside a buffer with the assertions compiled out *)

(** Only an exception can be caught by the caller. *)
Definition catchable (f : failure) : bool :=
  match f with
  | CapacityExceeded => true
  | _ => false
  end.

Inductive result (A : Type) :=
  | Ok (a : A)
  | Err (f : failure).
Arguments Ok {A} a.
Arguments Err {A} f.

#[global] Instance result_ret : MRet result := @Ok.
#[global] Instance result_bind : MBind result := λ A B k r,
  match r with
  | Ok a => k a
  | Err f => Err f
  end.

(** [assert(c)]: nothing happens when [c] holds or when assertions are
    compiled out. *)
Definition assert `{Build} (c : bool) : result () :=
  if NDEBUG || c then Ok () else Err AssertionFailure.

(** What an access that an assertion guards does when the guard is false and
    the access leaves the buffer. *)
Definition out_of_bounds `{Build} {A} : result A :=
  Err (if NDEBUG then UndefinedBehaviour else AssertionFailure).

(** [for (std::size_t i = first; i < first + count; ++i) body]. *)
Fixpoint for_range {St} (first count : nat) (body : nat → St → result St)
    (s : St) : result St :=
  match count with
  | 0 => Ok s
  | S count' => s' ← body first s; for_range (S first) count' body s'
  end.

(** ** Eigen: dense coefficients in column-major order *)

(** A dimension of an Eigen type is either fixed when the program is built or
    known only when it runs. *)
Inductive Dim :=
  | Fixed (n : nat)
  | Dynamic (n : nat).

#[global] Instance Dim_eq_dec : EqDecision Dim.
Proof. solve_decision. Defined.

(** [RowsAtCompileTime] / [ColsAtCompileTime]; [Eigen::Dynamic] is -1. *)
Definition AtCompileTime (d : Dim) : Z :=
  match d with
  | Fixed n => Z.of_nat n
  | Dynamic _ => (-1)%Z
  end.

(** [rows()] / [cols()]. *)
Definition at_run_time (d : Dim) : nat :=
  match d with
  | Fixed n | Dynamic n => n
  end.

(** [kSize == T::RowsAtCompileTime], as a [static_assert] decides it. The
    comparison converts -1 to the largest [std::size_t], which is the size of
    no array, so a dynamic dimension equals no [kSize]. *)
Definition static_size_is (kSize : nat) (d : Dim) : bool :=
  bool_decide (Z.of_nat kSize = AtCompileTime d).

(** [SizeAtCompileTime]: dynamic as soon as one dimension is. *)
Definition SizeAtCompileTime (rows cols : Dim) : Z :=
  match rows, cols with
  | Fixed r, Fixed c => Z.of_nat (r * c)
  | _, _ => (-1)%Z
  end.

(** [EIGEN_STATIC_ASSERT_SAME_MATRIX_SIZE], which every assignment makes on
    the types of its destination and its source when the program is built:
    both are empty, or each dimension is dynamic on one side or the same on
    both. *)
Definition same_matrix_size (rows0 cols0 rows1 cols1 : Dim) : bool :=
  (bool_decide (SizeAtCompileTime rows0 cols0 = 0%Z)
   && bool_decide (SizeAtCompileTime rows1 cols1 = 0%Z))
  || ((bool_decide (AtCompileTime rows0 = (-1)%Z)
       || bool_decide (AtCompileTime rows1 = (-1)%Z)
       || bool_decide (AtCompileTime rows0 = AtCompileTime rows1))
      && (bool_decide (AtCompileTime cols0 = (-1)%Z)
          || bool_decide (AtCompileTime cols1 = (-1)%Z)
          || bool_decide (AtCompileTime cols0 = AtCompileTime cols1))).

Section Model.
Context `{Inst : Instantiation} `{Bld : Build}.

(** The arguments [params] and [cov] of the constructor: an
    [Eigen::MatrixBase] expression is its two dimensions, each fixed by its
    type or known at run time, and its coefficients. The constructor takes
    any such expression for [params], not only a column vector. *)
Record MatrixExpr := {
  mat_rows : Dim;
  mat_cols : Dim;
  mat_coeff : nat → nat → Scalar
}.

(** Position of coefficient (i, j) in the storage of a matrix with [rows]
    rows. *)
Definition offset (rows i j : nat) : nat := i + j * rows.

(** [operator()(i, j)] as an rvalue on [rows] x [cols] coefficients stored in
    [data]. *)
Definition load (rows cols : nat) (data : list Scalar) (i j : nat)
    : result Scalar :=
  _ ← assert (bool_decide (i < rows) && bool_decide (j < cols));
  match data !! offset rows i j with
  | Some x => Ok x
  | None => Err UndefinedBehaviour
  end.

(** [operator()(i, j) = x]. *)
Definition store (rows cols : nat) (data : list Scalar) (i j : nat)
    (x : Scalar) : result (list Scalar) :=
  _ ← assert (bool_decide (i < rows) && bool_decide (j < cols));
  if bool_decide (offset rows i j < length data)
  then Ok (<[offset rows i j := x]> data)
  else Err UndefinedBehaviour.

(** A matrix that owns its coefficients: [FullParametersVector] (one column)
    and [FullCovarianceMatrix]. *)
Record Dense := {
  d_rows : nat;
  d_cols : nat;
  d_data : list Scalar
}.

(** [Matrix::Zero()] *)
Definition Zero (rows cols : nat) : Dense :=
  {| d_rows := rows; d_cols := cols; d_data := replicate (rows * cols) zero |}.

Definition dense_coeff (M : Dense) (i j : nat) : result Scalar :=
  load (d_rows M) (d_cols M) (d_data M) i j.

Definition dense_set (M : Dense) (i j : nat) (x : Scalar) : result Dense :=
  data ← store (d_rows M) (d_cols M) (d_data M) i j x;
  mret {| d_rows := d_rows M; d_cols := d_cols M; d_data := data |}.

(** ** The measurement *)

(** [SubspaceIndex] is [std::uint8_t]: an integer in [0, 256). *)
Definition SubspaceIndex_max : Z := 256.

(** [static_cast<SubspaceIndex>(index)] *)
Definition static_cast_SubspaceIndex (index : Z) : Z :=
  (index mod SubspaceIndex_max)%Z.

Record Measurement := {
  m_source : SourceLink;
  m_subspaceIndices : list Z;   (* static_vector<SubspaceIndex, kFullSize> *)
  m_params : list Scalar;       (* std::array<Scalar, kFullSize> *)
  m_cov : list Scalar           (* std::array<Scalar, kFullSize * kFullSize> *)
}.

(** What the member types guarantee of every object of the class. *)
Definition well_formed (m : Measurement) : Prop :=
  length (m_subspaceIndices m) ≤ kFullSize
  ∧ Forall (λ z, (0 ≤ z < SubspaceIndex_max)%Z) (m_subspaceIndices m)
  ∧ length (m_params m) = kFullSize
  ∧ length (m_cov m) = kFullSize * kFullSize.

(** The two buffers a view can point into: [m_params.data()] and
    [m_cov.data()]. *)
Inductive Buffer :=
  | ParamsData
  | CovData.

Definition buffer (m : Measurement) (b : Buffer) : list Scalar :=
  match b with
  | ParamsData => m_params m
  | CovData => m_cov m
  end.

Definition set_buffer (m : Measurement) (b : Buffer) (data : list Scalar)
    : Measurement :=
  match b with
  | ParamsData =>
      {| m_source := m_source m; m_subspaceIndices := m_subspaceIndices m;
         m_params := data; m_cov := m_cov m |}
  | CovData =>
      {| m_source := m_source m; m_subspaceIndices := m_subspaceIndices m;
         m_params := m_params m; m_cov := data |}
  end.

(** [Eigen::Map]: a pointer into the measurement and the dimensions the
    memory behind it is read with. It owns nothing: reading and writing go to
    the measurement it was taken from. *)
Record EigenMap := {
  map_data : Buffer;
  map_rows : nat;
  map_cols : nat
}.

Definition map_coeff (v : EigenMap) (m : Measurement) (i j : nat)
    : result Scalar :=
  load (map_rows v) (map_cols v) (buffer m (map_data v)) i j.

Definition map_set (v : EigenMap) (m : Measurement) (i j : nat) (x : Scalar)
    : result Measurement :=
  data ← store (map_rows v) (map_cols v) (buffer m (map_data v)) i j x;
  mret (set_buffer m (map_data v) data).

(** [src.coeff(i, j)], which checks nothing: a coefficient the expression
    does not have is read from outside its storage. *)
Definition expr_coeff (src : MatrixExpr) (i j : nat) : result Scalar :=
  if bool_decide (i < at_run_time (mat_rows src))
     && bool_decide (j < at_run_time (mat_cols src))
  then Ok (mat_coeff src i j)
  else Err UndefinedBehaviour.

(** [map = src] at run time. A map cannot be resized: Eigen asserts that the
    source has the dimensions of the map. Then, also when the assertion is
    compiled out, it copies the coefficients of the source over the extent
    of the map, column by column; a source with more columns than the map
    loses the further ones. (The constructor only assigns sources with the
    row count of the map, which its [static_assert]s fix.) *)
Definition map_assign (v : EigenMap) (m : Measurement) (src : MatrixExpr)
    : result Measurement :=
  _ ← assert (bool_decide (map_rows v = at_run_time (mat_rows src))
              && bool_decide (map_cols v = at_run_time (mat_cols src)));
  for_range 0 (map_cols v) (λ j m,
    for_range 0 (map_rows v) (λ i m,
      x ← expr_coeff src i j; map_set v m i j x) m) m.

(** [static_vector::resize(count)]: the new elements are value-initialised. *)
Definition sv_resize (v : list Z) (count : nat) : result (list Z) :=
  if bool_decide (count ≤ kFullSize)
  then Ok (take count v ++ replicate (count - length v) 0%Z)
  else Err CapacityExceeded.

(** [static_vector::operator[]] *)
Definition sv_at (v : list Z) (i : nat) : result Z :=
  match v !! i with
  | Some x => Ok x
  | None => out_of_bounds
  end.

(** [std::transform(first, last, d_first, op)] and
    [std::copy(first, last, d_first)] over a destination of the given
    content: the front of the destination is overwritten. *)
Definition std_transform {A B} (src : list A) (dst : list B) (op : A → B)
    : result (list B) :=
  if bool_decide (length src ≤ length dst)
  then Ok ((op <$> src) ++ drop (length src) dst)
  else Err UndefinedBehaviour.

Definition std_copy {A} (src dst : list A) : result (list A) :=
  std_transform src dst id.

(** [std::distance(first, std::find(first, last, value))]: the position of
    the first element equal to [value], the length when there is none. *)
Fixpoint std_find (l : list Z) (value : Z) : nat :=
  match l with
  | [] => 0
  | x :: l' => if bool_decide (x = value) then 0 else S (std_find l' value)
  end.

Definition size (m : Measurement) : nat := length (m_subspaceIndices m).

Definition sourceLink (m : Measurement) : SourceLink := m_source m.

Definition contains (m : Measurement) (i : Z) : bool :=
  negb (bool_decide (std_find (m_subspaceIndices m) i = size m)).

Definition indexOf (m : Measurement) (i : Z) : result nat :=
  let it := std_find (m_subspaceIndices m) i in
  _ ← assert (negb (bool_decide (it = size m)));
  mret it.

(** [subspaceIndices()] *)
Definition subspaceIndices (m : Measurement) : list Z := m_subspaceIndices m.

(** [subspaceIndices<dim>()]. The array [result] is declared without an
    initialiser: [uninitialised] is what its [dim] slots hold before the
    copy. *)
Definition subspaceIndices_static (dim : nat) (uninitialised : list Z)
    (m : Measurement) : result (list Z) :=
  _ ← assert (bool_decide (dim = size m));
  std_copy (m_subspaceIndices m) uninitialised.

(** Modelled from the spec: the constant [Acts::kBoundSubspaceIndicesInvalid]
    is declared in a header outside these sources; it is the fixed-length
    array of the bound space in which every slot holds the designated invalid
    index. *)
Definition kBoundSubspaceIndicesInvalid : list Z :=
  replicate kFullSize kInvalidIndex.

Definition boundSubsetIndices (m : Measurement) : result (list Z) :=
  if indices_is_BoundIndices
  then std_copy (m_subspaceIndices m) kBoundSubspaceIndicesInvalid
  else Err ConstraintNotSatisfied.

(** [parameters<dim>()], const and non-const: the same map either way. *)
Definition parameters_static (dim : nat) (m : Measurement)
    : result EigenMap :=
  _ ← assert (bool_decide (dim = size m));
  mret {| map_data := ParamsData; map_rows := dim; map_cols := 1 |}.

(** [parameters()], const and non-const. *)
Definition parameters (m : Measurement) : EigenMap :=
  {| map_data := ParamsData; map_rows := size m; map_cols := 1 |}.

(** [covariance<dim>()], const and non-const. *)
Definition covariance_static (dim : nat) (m : Measurement)
    : result EigenMap :=
  _ ← assert (bool_decide (dim = size m));
  mret {| map_data := CovData; map_rows := dim; map_cols := dim |}.

(** [covariance()], const and non-const. *)
Definition covariance (m : Measurement) : EigenMap :=
  {| map_data := CovData; map_rows := size m; map_cols := size m |}.

Definition fullParameters (m : Measurement) : result Dense :=
  for_range 0 (size m) (λ i result,
    index ← sv_at (m_subspaceIndices m) i;
    x ← map_coeff (parameters m) m i 0;
    dense_set result (Z.to_nat index) 0 x)
    (Zero kFullSize 1).

Definition fullCovariance (m : Measurement) : result Dense :=
  for_range 0 (size m) (λ i result,
    for_range 0 (size m) (λ j result,
      row ← sv_at (m_subspaceIndices m) i;
      col ← sv_at (m_subspaceIndices m) j;
      x ← map_coeff (covariance m) m i j;
      dense_set result (Z.to_nat row) (Z.to_nat col) x)
      result)
    (Zero kFullSize kFullSize).

(** The constructor. What is decided when the program is built comes
    first: its three [static_assert]s, then the static size checks of the
    two assignments, [parameters<kSize>() = params] to a [kSize] x 1 map and
    [covariance<kSize>() = cov] to a [kSize] x [kSize] map. The column count
    of [params] is checked by the assignment only. (Eigen transposes a
    vector assigned to one of the other orientation only when the
    destination has more than one coefficient; a source with one row has
    [kSize] = 1 here, so no assignment of the constructor transposes.) *)
Definition construct (source : SourceLink) (subspaceIndices : list Z)
    (params : MatrixExpr) (cov : MatrixExpr) : result Measurement :=
  let kSize := length subspaceIndices in
  if negb (static_size_is kSize (mat_rows params))
  then Err (StaticAssertion ParameterSizeMismatch)
  else if negb (static_size_is kSize (mat_rows cov))
  then Err (StaticAssertion CovarianceRowsMismatch)
  else if negb (static_size_is kSize (mat_cols cov))
  then Err (StaticAssertion CovarianceColsMismatch)
  else if negb (same_matrix_size (Fixed kSize) (Fixed 1)
                  (mat_rows params) (mat_cols params))
  then Err (StaticAssertion MixedMatrixSizes)
  else if negb (same_matrix_size (Fixed kSize) (Fixed kSize)
                  (mat_rows cov) (mat_cols cov))
  then Err (StaticAssertion MixedMatrixSizes)
  else
    let m := {| m_source := source; m_subspaceIndices := [];
                m_params := replicate kFullSize zero;
                m_cov := replicate (kFullSize * kFullSize) zero |} in
    indices ← sv_resize (m_subspaceIndices m) kSize;
    indices ← std_transform subspaceIndices indices static_cast_SubspaceIndex;
    let m := {| m_source := m_source m; m_subspaceIndices := indices;
                m_params := m_params m; m_cov := m_cov m |} in
    p ← parameters_static kSize m;
    m ← map_assign p m params;
    c ← covariance_static kSize m;
    map_assign c m cov.

(** [makeVariableSizeMeasurement(source, params, cov, index0, tailIndices...)] *)
Definition makeVariableSizeMeasurement (source : SourceLink)
    (params : MatrixExpr) (cov : MatrixExpr) (index0 : Z)
    (tailIndices : list Z) : result Measurement :=
  construct source (index0 :: tailIndices) params cov.

End Model.

Section Mutations.
Context `{Inst : Instantiation} `{Bld : Build}.

(** Every way a caller can change a measurement it holds: a write through one
    of the four views, or [operator=]. [dim] is [Some d] for the statically
    sized accessor instantiated at [d] and [None] for the dynamically sized
    one. *)
Inductive Mutation :=
  | SetParameter (dim : option nat) (i : nat) (x : Scalar)
  | SetCovariance (dim : option nat) (i j : nat) (x : Scalar)
  | Assign (other : Measurement).

Definition mutate (op : Mutation) (m : Measurement) : result Measurement :=
  match op with
  | SetParameter (Some dim) i x =>
      v ← parameters_static dim m; map_set v m i 0 x
  | SetParameter None i x => map_set (parameters m) m i 0 x
  | SetCovariance (Some dim) i j x =>
      v ← covariance_static dim m; map_set v m i j x
  | SetCovariance None i j x => map_set (covariance m) m i j x
  | Assign other => Ok other
  end.

(** A write through a view, as opposed to an assignment. *)
Definition is_write (op : Mutation) : bool :=
  match op with
  | Assign _ => false
  | _ => true
  end.

(** Mutations applied one after the other; the first that fails ends the
    run. *)
Fixpoint mutate_all (ops : list Mutation) (m : Measurement)
    : result Measurement :=
  match ops with
  | [] => Ok m
  | op :: ops' => m' ← mutate op m; mutate_all ops' m'
  end.

End Mutations.

(** ** A concrete instantiation: the bound parameter space *)

Module Scenario.

(** Six bound parameters with rational scalars. *)
Definition bound : Instantiation :=
  {| Scalar := Q; zero := Qmake 0 1; SourceLink := unit; kFullSize := 6;
     indices_is_BoundIndices := true; kInvalidIndex := 6%Z |}.

(** A parameter space that is not the bound one. *)
Definition unbound : Instantiation :=
  {| Scalar := Q; zero := Qmake 0 1; SourceLink := unit; kFullSize := 8;
     indices_is_BoundIndices := false; kInvalidIndex := 6%Z |}.

Definition debug : Build := {| NDEBUG := false |}.
Definition release : Build := {| NDEBUG := true |}.

#[local] Existing Instance bound.

(** indices = [0, 2], values = [1.5, -0.3],
    covariance = [[0.1, 0.0], [0.0, 0.2]]. *)
Definition values : MatrixExpr :=
  {| mat_rows := Fixed 2; mat_cols := Fixed 1;
     mat_coeff := λ i _, nth i [Qmake 3 2; Qmake (-3) 10] (Qmake 0 1) |}.

Definition cov : MatrixExpr :=
  {| mat_rows := Fixed 2; mat_cols := Fixed 2;
     mat_coeff := λ i j,
       nth j (nth i [[Qmake 1 10; Qmake 0 1]; [Qmake 0 1; Qmake 2 10]] [])
         (Qmake 0 1) |}.

(** The same values in a vector whose length is known only at run time, and
    a vector of three values. *)
Definition dynamic_values : MatrixExpr :=
  {| mat_rows := Dynamic 2; mat_cols := Fixed 1;
     mat_coeff := mat_coeff values |}.

Definition three_values : MatrixExpr :=
  {| mat_rows := Dynamic 3; mat_cols := Fixed 1;
     mat_coeff := mat_coeff values |}.

(** Two rows fixed by the type and three columns known at run time, as a
    [Matrix<Scalar, 2, Dynamic>] holds them: the first column is the two
    values. *)
Definition three_columns : MatrixExpr :=
  {| mat_rows := Fixed 2; mat_cols := Dynamic 3;
     mat_coeff := λ i j,
       nth i (nth j [[Qmake 3 2; Qmake (-3) 10]; [Qmake 4 1; Qmake 5 1];
                     [Qmake 6 1; Qmake 7 1]] [])
         (Qmake 0 1) |}.

(** What the constructor builds from them when assertions are compiled
    out. *)
Definition first_column_kept : Measurement :=
  {| m_source := tt;
     m_subspaceIndices := [0; 2]%Z;
     m_params := [Qmake 3 2; Qmake (-3) 10] ++ replicate 4 (Qmake 0 1);
     m_cov := [Qmake 1 10; Qmake 0 1; Qmake 0 1; Qmake 2 10]
              ++ replicate 32 (Qmake 0 1) |}.

(** What the constructor builds from them. *)
Definition two_dim : Measurement :=
  {| m_source := tt;
     m_subspaceIndices := [0; 2]%Z;
     m_params := [Qmake 3 2; Qmake (-3) 10] ++ replicate 4 (Qmake 0 1);
     m_cov := [Qmake 1 10; Qmake 0 1; Qmake 0 1; Qmake 2 10]
              ++ replicate 32 (Qmake 0 1) |}.

(** One row fixed by the type and three columns known at run time, as a
    [RowVectorXd] of three values holds them, and a covariance of one row
    and one column. *)
Definition row_values : MatrixExpr :=
  {| mat_rows := Fixed 1; mat_cols := Dynamic 3;
     mat_coeff := λ _ j, nth j [Qmake 4 1; Qmake 5 1; Qmake 6 1] (Qmake 0 1) |}.

Definition variance : MatrixExpr :=
  {| mat_rows := Fixed 1; mat_cols := Fixed 1;
     mat_coeff := λ _ _, Qmake 1 10 |}.

(** A measurement in which the index 2 occurs twice, and one with an index
    outside the six-dimensional space. *)
Definition repeated : Measurement :=
  {| m_source := tt;
     m_subspaceIndices := [2; 0; 2]%Z;
     m_params := [Qmake 1 1; Qmake 2 1; Qmake 3 1] ++ replicate 3 (Qmake 0 1);
     m_cov := [Qmake 1 1; Qmake 2 1; Qmake 3 1; Qmake 4 1; Qmake 5 1;
               Qmake 6 1; Qmake 7 1; Qmake 8 1; Qmake 9 1]
              ++ replicate 27 (Qmake 0 1) |}.

Definition stray : Measurement :=
  {| m_source := tt;
     m_subspaceIndices := [0; 7]%Z;
     m_params := [Qmake 3 2; Qmake (-3) 10] ++ replicate 4 (Qmake 0 1);
     m_cov := [Qmake 1 10; Qmake 0 1; Qmake 0 1; Qmake 2 10]
              ++ replicate 32 (Qmake 0 1) |}.

End Scenario.

(** ** What the expansions compute *)

(** The last position below [bound] at which the index list holds [index]:
    the iteration of the scatter loops whose write to that slot survives. *)
Fixpoint last_position (indices : list Z) (bound : nat) (index : Z)
    : option nat :=
  match bound with
  | 0 => None
  | S bound' =>
      if bool_decide (indices !! bound' = Some index) then Some bound'
      else last_position indices bound' index
  end.

Section Expectation.
Context `{Inst : Instantiation}.

(** The values a reader of the two buffers finds at local position [k] and
    at local position ([k], [l]). *)
Definition local_parameter (m : Measurement) (k : nat) : Scalar :=
  default zero (m_params m !! k).

Definition local_covariance (m : Measurement) (k l : nat) : Scalar :=
  default zero (m_cov m !! offset (size m) k l).

(** The iteration (k, l) of the double loop of [fullCovariance] whose write
    to the slot ([r], [c]) is the last one among the iterations before
    (i, j), if there is one. *)
Definition surviving_write (indices : list Z) (i j : nat) (r c : Z)
    : option (nat * nat) :=
  match
    (if bool_decide (indices !! i = Some r) then last_position indices j c
     else None)
  with
  | Some l => Some (i, l)
  | None =>
      match last_position indices i r,
            last_position indices (length indices) c with
      | Some k, Some l => Some (k, l)
      | _, _ => None
      end
  end.

Definition written_covariance (m : Measurement) (w : option (nat * nat))
    : Scalar :=
  match w with
  | Some (k, l) => local_covariance m k l
  | None => zero
  end.

Definition written_parameter (m : Measurement) (w : option nat) : Scalar :=
  match w with
  | Some k => local_parameter m k
  | None => zero
  end.

(** What a write through a view leaves alone. *)
Definition same_frame (b : Buffer) (m m' : Measurement) : Prop :=
  m_source m' = m_source m
  ∧ m_subspaceIndices m' = m_subspaceIndices m
  ∧ length (buffer m' b) = length (buffer m b)
  ∧ ∀ b', b' ≠ b → buffer m' b' = buffer m b'.

(** What the constructor builds from inputs of matching static sizes that
    fit the capacity. *)
Definition constructed (source : SourceLink) (indices : list Z)
    (params : MatrixExpr) (cov : MatrixExpr) (m : Measurement) : Prop :=
  m_source m = source
  ∧ m_subspaceIndices m = static_cast_SubspaceIndex <$> indices
  ∧ length (m_params m) = kFullSize
  ∧ length (m_cov m) = kFullSize * kFullSize
  ∧ (∀ k, k < length indices → m_params m !! k = Some (mat_coeff params k 0))
  ∧ (∀ k l, k < length indices → l < length indices →
       m_cov m !! offset (length indices) k l = Some (mat_coeff cov k l)).

(** The dimensions and the storage of an owning matrix agree. *)
Definition dense_shape (M : Dense) (rows cols : nat) : Prop :=
  d_rows M = rows ∧ d_cols M = cols ∧ length (d_data M) = rows * cols.

(** When an expression with [n] rows can be assigned to the [n] x 1 view of
    the parameters. When the program is built: its column count is 1 or
    dynamic, or there is nothing to copy. When it runs: it has one column;
    with assertions compiled out, it has at least one, or there is nothing
    to copy. *)
Definition parameter_columns_accepted `{Bld : Build} (n : nat) (cols : Dim)
    : Prop :=
  (n = 0 ∨ cols = Fixed 1 ∨ ∃ c, cols = Dynamic c)
  ∧ (if NDEBUG then n = 0 ∨ 1 ≤ at_run_time cols else at_run_time cols = 1).

(** The measurement as the constructor has it before the two assignments:
    the indices stored, the two buffers zero. *)
Definition allocated (source : SourceLink) (indices : list Z) : Measurement :=
  {| m_source := source;
     m_subspaceIndices := static_cast_SubspaceIndex <$> indices;
     m_params := replicate kFullSize zero;
     m_cov := replicate (kFullSize * kFullSize) zero |}.

(** Every stored index addresses a slot of the full space. *)
Definition indices_in_range (m : Measurement) : Prop :=
  Forall (λ z, (0 ≤ z < Z.of_nat kFullSize)%Z) (m_subspaceIndices m).

(** The invariant the data model states of the subspace index set. *)
Definition index_set_invariant (m : Measurement) : Prop :=
  NoDup (m_subspaceIndices m) ∧ indices_in_range m.

End Expectation.

(** ** The error monad and the loop rule *)

Lemma bind_Ok {A B} (r : result A) (k : A → result B) (b : B) :
  r ≫= k = Ok b ↔ ∃ a, r = Ok a ∧ k a = Ok b.
Proof.
  destruct r as [a|f]; simpl; split.
  - intros Hk. by exists a.
  - intros (a' & [= <-] & Hk). exact Hk.
  - intros [=].
  - intros (a' & [=] & _).
Qed.

Lemma bind_Ok_l {A B} (r : result A) (k : A → result B) (a : A) :
  r = Ok a → r ≫= k = k a.
Proof. by intros ->. Qed.

(** A loop whose body keeps an invariant and never fails runs to its end. *)
Lemma for_range_inv {St} (I : nat → St → Prop) (body : nat → St → result St)
    (count : nat) :
  ∀ (first : nat) (s : St),
    I first s →
    (∀ i t, first ≤ i < first + count → I i t →
            ∃ t', body i t = Ok t' ∧ I (S i) t') →
    ∃ s', for_range first count body s = Ok s' ∧ I (first + count) s'.
Proof.
  induction count as [|count IH]; intros first s Hs Hbody; simpl.
  - exists s. by rewrite Nat.add_0_r.
  - destruct (Hbody first s) as (t & Ht & HIt); [lia | done |].
    rewrite Ht. simpl.
    destruct (IH (S first) t HIt) as (s' & Hs' & HI').
    { intros i u Hi Hu. apply Hbody; [lia | done]. }
    exists s'. split; [done |].
    by replace (first + S count) with (S first + count) by lia.
Qed.

Section Proofs.
Context `{Inst : Instantiation} `{Bld : Build}.

Lemma assert_true : assert true = Ok ().
Proof. unfold assert. by rewrite orb_true_r. Qed.

(** ** Column-major offsets *)

Lemma offset_lt (rows cols i j : nat) :
  i < rows → j < cols → offset rows i j < rows * cols.
Proof. unfold offset. nia. Qed.

Lemma offset_inj (rows i j i' j' : nat) :
  i < rows → i' < rows →
  offset rows i j = offset rows i' j' → i = i' ∧ j = j'.
Proof.
  unfold offset. intros Hi Hi' Heq.
  destruct (lt_eq_lt_dec j j') as [[Hlt| ->]|Hlt]; [| lia |].
  - pose proof (Nat.mul_le_mono_r (S j) j' rows Hlt). simpl in *. lia.
  - pose proof (Nat.mul_le_mono_r (S j') j rows Hlt). simpl in *. lia.
Qed.

Lemma load_Ok (rows cols : nat) (data : list Scalar) (i j : nat) (x : Scalar) :
  i < rows → j < cols → data !! offset rows i j = Some x →
  load rows cols data i j = Ok x.
Proof.
  intros Hi Hj Hx. unfold load.
  rewrite !bool_decide_eq_true_2 by done. simpl. rewrite assert_true. simpl.
  by rewrite Hx.
Qed.

Lemma store_Ok (rows cols : nat) (data : list Scalar) (i j : nat) (x : Scalar) :
  i < rows → j < cols → offset rows i j < length data →
  store rows cols data i j x = Ok (<[offset rows i j := x]> data).
Proof.
  intros Hi Hj Hlen. unfold store.
  rewrite !bool_decide_eq_true_2 by done. simpl. by rewrite assert_true.
Qed.

(** ** Assignment to a view *)

Lemma same_frame_refl (b : Buffer) (m : Measurement) : same_frame b m m.
Proof. by repeat split. Qed.

Lemma buffer_set_buffer (m : Measurement) (b : Buffer) (data : list Scalar) :
  buffer (set_buffer m b data) b = data.
Proof. by destruct b. Qed.

Lemma same_frame_set_buffer (b : Buffer) (m m' : Measurement)
    (data : list Scalar) :
  same_frame b m m' → length data = length (buffer m' b) →
  same_frame b m (set_buffer m' b data).
Proof.
  intros (Hsrc & Hidx & Hlen & Hother) Hdata. repeat split.
  - by destruct b.
  - by destruct b.
  - rewrite buffer_set_buffer. congruence.
  - intros b' Hb'. rewrite <- (Hother b' Hb'). by destruct b, b'.
Qed.

Lemma map_set_Ok (v : EigenMap) (m : Measurement) (i j : nat) (x : Scalar) :
  i < map_rows v → j < map_cols v →
  offset (map_rows v) i j < length (buffer m (map_data v)) →
  map_set v m i j x
  = Ok (set_buffer m (map_data v)
          (<[offset (map_rows v) i j := x]> (buffer m (map_data v)))).
Proof.
  intros Hi Hj Hlen. unfold map_set. by rewrite store_Ok.
Qed.

Lemma assert_Ok (c : bool) : NDEBUG = true ∨ c = true → assert c = Ok ().
Proof. unfold assert. intros [-> | ->]; [done | by rewrite orb_true_r]. Qed.

Lemma assert_Ok_inv (c : bool) (u : ()) :
  assert c = Ok u → NDEBUG = true ∨ c = true.
Proof.
  unfold assert. destruct NDEBUG; [by left |]. destruct c; [by right | done].
Qed.

Lemma expr_coeff_Ok (src : MatrixExpr) (i j : nat) :
  i < at_run_time (mat_rows src) → j < at_run_time (mat_cols src) →
  expr_coeff src i j = Ok (mat_coeff src i j).
Proof.
  intros Hi Hj. unfold expr_coeff. by rewrite !bool_decide_eq_true_2.
Qed.

Lemma expr_coeff_Ok_inv (src : MatrixExpr) (i j : nat) (x : Scalar) :
  expr_coeff src i j = Ok x →
  i < at_run_time (mat_rows src) ∧ j < at_run_time (mat_cols src).
Proof.
  unfold expr_coeff. do 2 case_bool_decide; simpl; by intros [=].
Qed.

(** An assignment that passes the size assertion, or is not held to it, and
    finds in the source every coefficient of the view, writes them all. *)
Lemma map_assign_spec (v : EigenMap) (m : Measurement) (src : MatrixExpr) :
  map_rows v * map_cols v ≤ length (buffer m (map_data v)) →
  NDEBUG = true
  ∨ (map_rows v = at_run_time (mat_rows src)
     ∧ map_cols v = at_run_time (mat_cols src)) →
  (∀ i j, i < map_rows v → j < map_cols v →
     i < at_run_time (mat_rows src) ∧ j < at_run_time (mat_cols src)) →
  ∃ m', map_assign v m src = Ok m'
        ∧ same_frame (map_data v) m m'
        ∧ ∀ i j, i < map_rows v → j < map_cols v →
            buffer m' (map_data v) !! offset (map_rows v) i j
            = Some (mat_coeff src i j).
Proof.
  intros Hfit Hsize Hsrc. unfold map_assign.
  rewrite assert_Ok; [simpl mbind at 1 |].
  2:{ destruct Hsize as [?|[Hr Hc]]; [by left | right].
      by rewrite !bool_decide_eq_true_2. }
  set (b := map_data v) in *. set (rows := map_rows v) in *.
  set (cols := map_cols v) in *. set (coeff := mat_coeff src).
  pose (done_before := λ (i j : nat) (m' : Measurement),
    same_frame b m m'
    ∧ ∀ i' j', i' < rows → j' < j ∨ (j' = j ∧ i' < i) →
        buffer m' b !! offset rows i' j' = Some (coeff i' j')).
  destruct (for_range_inv (done_before 0)
              (λ j m, for_range 0 rows (λ i m,
                 x ← expr_coeff src i j; map_set v m i j x) m)
              cols 0 m) as (m' & Hrun & Hframe & Hall).
  - split; [apply same_frame_refl | intros; lia].
  - intros j t Hj Ht.
    destruct (for_range_inv (λ i, done_before i j)
                (λ i m, x ← expr_coeff src i j; map_set v m i j x) rows 0 t Ht)
      as (t' & Hrun & Hframe & Hall).
    + intros i u Hi (Hframe & Hall).
      assert (offset rows i j < length (buffer u b)) as Hoff.
      { destruct Hframe as (_ & _ & -> & _).
        pose proof (offset_lt rows cols i j). lia. }
      destruct (Hsrc i j) as [Hir Hjc]; [lia | lia |].
      rewrite expr_coeff_Ok by done. simpl mbind at 1.
      rewrite map_set_Ok by (done || lia).
      eexists. split; [done |]. split.
      * apply same_frame_set_buffer; [done | by rewrite length_insert].
      * intros i' j' Hi' Hdone. rewrite buffer_set_buffer. fold b rows.
        destruct (decide (offset rows i j = offset rows i' j')) as [Heq|Hne].
        -- apply offset_inj in Heq as [-> ->]; [| lia | done].
           by rewrite list_lookup_insert_eq.
        -- rewrite list_lookup_insert_ne by done.
           apply Hall; [done |].
           destruct Hdone as [?|[-> Hlt]]; [by left | right].
           split; [done |].
           destruct (decide (i' = i)) as [->|]; [done | lia].
    + exists t'. split; [done |]. split; [done |].
      intros i' j' Hi' Hdone. apply Hall; [done |]. simpl. lia.
  - exists m'. split; [done |]. split; [done |].
    intros i j Hi Hj. apply Hall; [done |]. simpl. lia.
Qed.

(** An assignment to a view of one column that returns passed the size
    assertion, or was not held to it, and found a first column in the
    source unless the view has no row. *)
Lemma map_assign_column_Ok_inv (v : EigenMap) (m m' : Measurement)
    (src : MatrixExpr) :
  map_cols v = 1 →
  map_assign v m src = Ok m' →
  (NDEBUG = true
   ∨ (map_rows v = at_run_time (mat_rows src)
      ∧ at_run_time (mat_cols src) = 1))
  ∧ (map_rows v = 0 ∨ 1 ≤ at_run_time (mat_cols src)).
Proof.
  intros Hcol. unfold map_assign. rewrite Hcol.
  intros (u & Hassert & Hloops)%bind_Ok. split.
  - apply assert_Ok_inv in Hassert as [?|Hsame]; [by left | right].
    apply andb_true_iff in Hsame as [Hr Hc].
    apply bool_decide_eq_true in Hr, Hc. by split.
  - destruct (map_rows v) as [|rows]; [by left | right].
    simpl in Hloops. apply bind_Ok in Hloops as (t & Hinner & _).
    apply bind_Ok in Hinner as (t' & Hfirst & _).
    apply bind_Ok in Hfirst as (x & Hread & _).
    apply expr_coeff_Ok_inv in Hread. lia.
Qed.

(** ** The constructor *)

Lemma static_size_is_Fixed (kSize : nat) (d : Dim) :
  static_size_is kSize d = true ↔ d = Fixed kSize.
Proof.
  unfold static_size_is. rewrite bool_decide_eq_true.
  destruct d as [n|n]; simpl; split.
  - intros Hn. f_equal. lia.
  - by intros [= ->].
  - lia.
  - intros [=].
Qed.

Lemma sv_resize_nil (count : nat) :
  count ≤ kFullSize → sv_resize [] count = Ok (replicate count 0%Z).
Proof.
  intros Hle. unfold sv_resize. rewrite bool_decide_eq_true_2 by done.
  by rewrite take_nil, Nat.sub_0_r.
Qed.

Lemma std_transform_all {A B} (src : list A) (dst : list B) (op : A → B) :
  length src = length dst → std_transform src dst op = Ok (op <$> src).
Proof.
  intros Hlen. unfold std_transform. rewrite bool_decide_eq_true_2 by lia.
  by rewrite drop_ge, app_nil_r by lia.
Qed.

Lemma same_matrix_size_same (rows cols : Dim) :
  same_matrix_size rows cols rows cols = true.
Proof.
  unfold same_matrix_size.
  rewrite (bool_decide_eq_true_2 (AtCompileTime rows = AtCompileTime rows)),
    (bool_decide_eq_true_2 (AtCompileTime cols = AtCompileTime cols)) by done.
  by rewrite !orb_true_r.
Qed.

Lemma same_matrix_size_column (n : nat) (cols : Dim) :
  same_matrix_size (Fixed n) (Fixed 1) (Fixed n) cols = true
  ↔ n = 0 ∨ cols = Fixed 1 ∨ ∃ c, cols = Dynamic c.
Proof.
  unfold same_matrix_size. destruct cols as [c|c]; simpl.
  - rewrite orb_true_iff, !andb_true_iff, !orb_true_iff, !bool_decide_eq_true.
    split.
    + intros [[Hn _]|[_ [?|Hc]]]; [left; lia | lia |].
      right. left. f_equal. lia.
    + intros [->|[[= ->]|[c' [=]]]].
      * left. split; simpl; lia.
      * right. split; [by right | by right].
  - split; [intros _; right; right; by exists c |]. intros _.
    rewrite (bool_decide_eq_true_2 (Z.of_nat n = Z.of_nat n)) by done.
    by rewrite !orb_true_r.
Qed.

(** An expression with one column is accepted in either build. *)
Lemma one_column_accepted (n : nat) (cols : Dim) :
  at_run_time cols = 1 → parameter_columns_accepted n cols.
Proof.
  intros Hone. split.
  - destruct cols as [c|c]; simpl in Hone; subst; [by right; left |].
    right. right. by exists 1.
  - rewrite Hone. destruct NDEBUG; [by right | done].
Qed.

(** With more indices than the capacity, the resize of the index vector
    throws, before either assignment. *)
Lemma construct_capacity (source : SourceLink) (indices : list Z)
    (params : MatrixExpr) (cov : MatrixExpr) :
  mat_rows params = Fixed (length indices) →
  (length indices = 0 ∨ mat_cols params = Fixed 1
   ∨ ∃ c, mat_cols params = Dynamic c) →
  mat_rows cov = Fixed (length indices) →
  mat_cols cov = Fixed (length indices) →
  kFullSize < length indices →
  construct source indices params cov = Err CapacityExceeded.
Proof.
  intros Hp Hcols Hr Hc Hcap. unfold construct. rewrite Hp, Hr, Hc.
  rewrite (proj2 (static_size_is_Fixed _ _) eq_refl).
  rewrite (proj2 (same_matrix_size_column _ _) Hcols).
  rewrite same_matrix_size_same. simpl.
  unfold sv_resize. by rewrite bool_decide_eq_false_2 by lia.
Qed.

(** With what is checked when the program is built in order and the indices
    within the capacity, the constructor comes to its two assignments. *)
Lemma construct_allocated (source : SourceLink) (indices : list Z)
    (params : MatrixExpr) (cov : MatrixExpr) :
  mat_rows params = Fixed (length indices) →
  (length indices = 0 ∨ mat_cols params = Fixed 1
   ∨ ∃ c, mat_cols params = Dynamic c) →
  mat_rows cov = Fixed (length indices) →
  mat_cols cov = Fixed (length indices) →
  length indices ≤ kFullSize →
  construct source indices params cov
  = (m ← map_assign
           {| map_data := ParamsData; map_rows := length indices;
              map_cols := 1 |}
           (allocated source indices) params;
     c ← covariance_static (length indices) m;
     map_assign c m cov).
Proof.
  intros Hp Hcols Hr Hc Hcap. unfold construct. rewrite Hp, Hr, Hc.
  rewrite (proj2 (static_size_is_Fixed _ _) eq_refl).
  rewrite (proj2 (same_matrix_size_column _ _) Hcols).
  rewrite same_matrix_size_same. simpl negb. cbv iota.
  cbn [m_subspaceIndices m_source m_params m_cov].
  rewrite (bind_Ok_l _ _ _ (sv_resize_nil _ Hcap)).
  rewrite (bind_Ok_l _ _ (static_cast_SubspaceIndex <$> indices)) by
    (apply std_transform_all; by rewrite length_replicate).
  fold (allocated source indices).
  assert (size (allocated source indices) = length indices) as Hsize
    by (unfold size; simpl; by rewrite length_fmap).
  unfold parameters_static. rewrite Hsize.
  by rewrite bool_decide_eq_true_2, assert_true by done.
Qed.

Lemma construct_spec (source : SourceLink) (indices : list Z)
    (params : MatrixExpr) (cov : MatrixExpr) :
  mat_rows params = Fixed (length indices) →
  parameter_columns_accepted (length indices) (mat_cols params) →
  mat_rows cov = Fixed (length indices) →
  mat_cols cov = Fixed (length indices) →
  length indices ≤ kFullSize →
  ∃ m, construct source indices params cov = Ok m
       ∧ constructed source indices params cov m.
Proof.
  intros Hp [Hcols Hrun] Hr Hc Hcap.
  rewrite construct_allocated by done.
  set (n := length indices) in *. set (m0 := allocated source indices).
  set (p := {| map_data := ParamsData; map_rows := n; map_cols := 1 |}).
  destruct (map_assign_spec p m0 params)
    as (m1 & Hrun1 & (Hsrc1 & Hidx1 & Hlen1 & Hother1) & Hval1).
  { simpl. rewrite length_replicate. lia. }
  { simpl. rewrite Hp. simpl. destruct NDEBUG; [by left | right]. by split. }
  { simpl. rewrite Hp. simpl. intros i j Hi Hj. split; [done |].
    destruct NDEBUG; lia. }
  rewrite Hrun1. simpl mbind at 1.
  assert (size m1 = n) as Hsize1.
  { unfold size. rewrite Hidx1. simpl. by rewrite length_fmap. }
  unfold covariance_static. rewrite Hsize1.
  rewrite bool_decide_eq_true_2, assert_true by done. simpl mbind at 1.
  set (c := {| map_data := CovData; map_rows := n; map_cols := n |}).
  destruct (map_assign_spec c m1 cov)
    as (m2 & Hrun2 & (Hsrc2 & Hidx2 & Hlen2 & Hother2) & Hval2).
  { change (n * n ≤ length (buffer m1 CovData)).
    rewrite (Hother1 CovData) by done. simpl.
    rewrite length_replicate. by apply Nat.mul_le_mono. }
  { right. simpl. by rewrite Hr, Hc. }
  { simpl. by rewrite Hr, Hc. }
  unfold mret, result_ret. simpl mbind. rewrite Hrun2.
  exists m2. split; [done |].
  simpl in Hlen1, Hlen2, Hval1, Hval2.
  pose proof (Hother1 CovData) as Hcov1. pose proof (Hother2 ParamsData) as Hp2.
  simpl in Hcov1, Hp2. rewrite length_replicate in Hlen1.
  repeat split.
  - by rewrite Hsrc2, Hsrc1.
  - by rewrite Hidx2, Hidx1.
  - by rewrite Hp2.
  - by rewrite Hlen2, Hcov1, length_replicate.
  - intros k Hk. rewrite Hp2 by done.
    specialize (Hval1 k 0 Hk). unfold offset in Hval1. simpl in Hval1.
    rewrite Nat.add_0_r in Hval1. apply Hval1. lia.
  - intros k l Hk Hl. by apply Hval2.
Qed.

(** The constructor returns a measurement only for such inputs. *)
Lemma construct_Ok_inv (source : SourceLink) (indices : list Z)
    (params : MatrixExpr) (cov : MatrixExpr) (m : Measurement) :
  construct source indices params cov = Ok m →
  mat_rows params = Fixed (length indices)
  ∧ parameter_columns_accepted (length indices) (mat_cols params)
  ∧ mat_rows cov = Fixed (length indices)
  ∧ mat_cols cov = Fixed (length indices)
  ∧ length indices ≤ kFullSize.
Proof.
  intros Hrun.
  assert (mat_rows params = Fixed (length indices)
          ∧ (length indices = 0 ∨ mat_cols params = Fixed 1
             ∨ ∃ c, mat_cols params = Dynamic c)
          ∧ mat_rows cov = Fixed (length indices)
          ∧ mat_cols cov = Fixed (length indices)) as (Hp & Hcols & Hr & Hc).
  { unfold construct in Hrun.
    destruct (static_size_is _ (mat_rows params)) eqn:Hp; [| done].
    destruct (static_size_is _ (mat_rows cov)) eqn:Hr; [| done].
    destruct (static_size_is _ (mat_cols cov)) eqn:Hc; [| done].
    apply static_size_is_Fixed in Hp, Hr, Hc.
    rewrite Hp in Hrun.
    destruct (same_matrix_size _ _ _ (mat_cols params)) eqn:Hcols; [| done].
    by apply same_matrix_size_column in Hcols. }
  destruct (decide (length indices ≤ kFullSize)) as [Hcap|Hcap].
  2:{ rewrite construct_capacity in Hrun by (done || lia). done. }
  rewrite construct_allocated in Hrun by done.
  apply bind_Ok in Hrun as (m1 & Hassign & _).
  apply map_assign_column_Ok_inv in Hassign as [Hsize Hfirst]; [| done].
  simpl in Hsize, Hfirst.
  repeat split; try done.
  destruct NDEBUG; [done |]. by destruct Hsize as [?|[_ ?]].
Qed.

Lemma construct_Ok (source : SourceLink) (indices : list Z)
    (params : MatrixExpr) (cov : MatrixExpr) (m : Measurement) :
  construct source indices params cov = Ok m →
  constructed source indices params cov m ∧ length indices ≤ kFullSize.
Proof.
  intros Hrun.
  destruct (construct_Ok_inv _ _ _ _ _ Hrun) as (Hp & Hcols & Hr & Hc & Hcap).
  destruct (construct_spec source indices params cov Hp Hcols Hr Hc Hcap)
    as (m' & Hrun' & Hm').
  split; [| done]. congruence.
Qed.

(** ** Last positions *)

Lemma last_position_Some (indices : list Z) (bound : nat) (index : Z) (k : nat) :
  last_position indices bound index = Some k →
  k < bound ∧ indices !! k = Some index.
Proof.
  induction bound as [|bound IH]; simpl; [done |].
  case_bool_decide as Hat.
  - intros [= <-]. split; [lia | done].
  - intros Hk. destruct (IH Hk). split; [lia | done].
Qed.

Lemma last_position_None (indices : list Z) (bound : nat) (index : Z) (k : nat) :
  last_position indices bound index = None →
  k < bound → indices !! k ≠ Some index.
Proof.
  induction bound as [|bound IH]; simpl; [lia |].
  case_bool_decide as Hat; [done |].
  intros Hnone Hk. destruct (decide (k = bound)) as [->|]; [done |].
  apply IH; [done | lia].
Qed.

Lemma last_position_here (indices : list Z) (bound : nat) (index : Z) :
  indices !! bound = Some index →
  last_position indices (S bound) index = Some bound.
Proof. intros Hat. simpl. by rewrite bool_decide_eq_true_2. Qed.

Lemma last_position_skip (indices : list Z) (bound : nat) (index : Z) :
  indices !! bound ≠ Some index →
  last_position indices (S bound) index = last_position indices bound index.
Proof. intros Hat. simpl. by rewrite bool_decide_eq_false_2. Qed.

Lemma last_position_NoDup (indices : list Z) (bound : nat) (index : Z) (k : nat) :
  NoDup indices → indices !! k = Some index → k < bound →
  last_position indices bound index = Some k.
Proof.
  intros Hnodup Hk. induction bound as [|bound IH]; [lia |].
  intros Hlt. simpl. case_bool_decide as Hat.
  - f_equal. by eapply NoDup_lookup.
  - apply IH. destruct (decide (k = bound)) as [->|]; [done | lia].
Qed.

Lemma last_position_not_elem (indices : list Z) (bound : nat) (index : Z) :
  index ∉ indices → last_position indices bound index = None.
Proof.
  intros Hnot. induction bound as [|bound IH]; simpl; [done |].
  rewrite bool_decide_eq_false_2; [done |].
  intros Hat. apply Hnot. by eapply list_elem_of_lookup_2.
Qed.

(** ** Which write survives in the double loop *)

Lemma surviving_write_start (indices : list Z) (r c : Z) :
  surviving_write indices 0 0 r c = None.
Proof. unfold surviving_write. simpl. by case_bool_decide. Qed.

Lemma surviving_write_step (indices : list Z) (i j : nat) (a b r c : Z) :
  indices !! i = Some a → indices !! j = Some b →
  surviving_write indices i (S j) r c
  = if bool_decide (r = a ∧ c = b) then Some (i, j)
    else surviving_write indices i j r c.
Proof.
  intros Hi Hj. unfold surviving_write. rewrite Hi.
  case_bool_decide as Hr; case_bool_decide as Hrc.
  - destruct Hrc as [_ ->]. by rewrite (last_position_here _ _ _ Hj).
  - rewrite last_position_skip; [done |].
    rewrite Hj. intros [= <-]. apply Hrc. split; congruence.
  - destruct Hrc as [-> _]. done.
  - done.
Qed.

Lemma surviving_write_next_row (indices : list Z) (i : nat) (r c : Z) :
  surviving_write indices i (length indices) r c
  = surviving_write indices (S i) 0 r c.
Proof.
  unfold surviving_write. simpl last_position at 3.
  replace (if bool_decide (indices !! S i = Some r) then None else None)
    with (@None nat) by by case_bool_decide.
  case_bool_decide as Hi.
  - rewrite (last_position_here _ _ _ Hi).
    destruct (last_position indices (length indices) c) as [l|]; [done |].
    by destruct (last_position indices i r).
  - by rewrite (last_position_skip _ _ _ Hi).
Qed.

Lemma surviving_write_end (indices : list Z) (r c : Z) :
  surviving_write indices (length indices) 0 r c
  = match last_position indices (length indices) r,
          last_position indices (length indices) c with
    | Some k, Some l => Some (k, l)
    | _, _ => None
    end.
Proof. unfold surviving_write. simpl. by case_bool_decide. Qed.

(** ** Reading the local values *)

Lemma sv_at_Ok (v : list Z) (i : nat) (z : Z) :
  v !! i = Some z → sv_at v i = Ok z.
Proof. unfold sv_at. by intros ->. Qed.

Lemma local_parameter_read (m : Measurement) (k : nat) :
  well_formed m → k < size m →
  map_coeff (parameters m) m k 0 = Ok (local_parameter m k).
Proof.
  intros (Hcap & _ & Hlen & _) Hk. unfold map_coeff, local_parameter. simpl.
  assert (offset (size m) k 0 = k) as Hoff by (unfold offset; lia).
  destruct (lookup_lt_is_Some_2 (m_params m) k) as [x Hx];
    [unfold size in Hk; lia |].
  rewrite Hx. simpl. apply load_Ok; [done | lia | by rewrite Hoff].
Qed.

Lemma local_covariance_read (m : Measurement) (k l : nat) :
  well_formed m → k < size m → l < size m →
  map_coeff (covariance m) m k l = Ok (local_covariance m k l).
Proof.
  intros (Hcap & _ & _ & Hlen) Hk Hl. unfold map_coeff, local_covariance. simpl.
  destruct (lookup_lt_is_Some_2 (m_cov m) (offset (size m) k l)) as [x Hx].
  { pose proof (offset_lt (size m) (size m) k l Hk Hl).
    pose proof (Nat.mul_le_mono _ _ _ _ Hcap Hcap). unfold size in *. lia. }
  rewrite Hx. simpl. by apply load_Ok.
Qed.

(** ** Owning matrices *)

Lemma Zero_shape (rows cols : nat) : dense_shape (Zero rows cols) rows cols.
Proof. repeat split. simpl. by rewrite length_replicate. Qed.

Lemma Zero_lookup (rows cols i j : nat) :
  i < rows → j < cols → d_data (Zero rows cols) !! offset rows i j = Some zero.
Proof.
  intros Hi Hj. simpl. apply lookup_replicate_2. by apply offset_lt.
Qed.

Lemma dense_set_Ok (M : Dense) (rows cols i j : nat) (x : Scalar) :
  dense_shape M rows cols → i < rows → j < cols →
  ∃ M', dense_set M i j x = Ok M'
        ∧ dense_shape M' rows cols
        ∧ d_data M' = <[offset rows i j := x]> (d_data M).
Proof.
  intros (Hr & Hc & Hlen) Hi Hj. unfold dense_set. rewrite Hr, Hc.
  rewrite store_Ok; [| done | done |].
  - eexists. split; [done |]. repeat split. simpl. by rewrite length_insert.
  - rewrite Hlen. by apply offset_lt.
Qed.

Lemma dense_coeff_Ok (M : Dense) (rows cols i j : nat) (x : Scalar) :
  dense_shape M rows cols → i < rows → j < cols →
  d_data M !! offset rows i j = Some x → dense_coeff M i j = Ok x.
Proof.
  intros (Hr & Hc & _) Hi Hj Hx. unfold dense_coeff. rewrite Hr, Hc.
  by apply load_Ok.
Qed.

(** ** The expansions *)

Lemma index_in_range (m : Measurement) (i : nat) (z : Z) :
  indices_in_range m → m_subspaceIndices m !! i = Some z →
  Z.to_nat z < kFullSize ∧ Z.of_nat (Z.to_nat z) = z.
Proof.
  intros Hrange Hi. unfold indices_in_range in Hrange.
  rewrite Forall_lookup in Hrange. specialize (Hrange i z Hi). simpl in Hrange.
  lia.
Qed.

Lemma fullParameters_spec (m : Measurement) :
  well_formed m → indices_in_range m →
  ∃ full, fullParameters m = Ok full
          ∧ dense_shape full kFullSize 1
          ∧ ∀ r, r < kFullSize →
              dense_coeff full r 0
              = Ok (written_parameter m
                      (last_position (m_subspaceIndices m) (size m)
                         (Z.of_nat r))).
Proof.
  intros Hwf Hrange. unfold fullParameters.
  pose (scattered := λ (i : nat) (res : Dense),
    dense_shape res kFullSize 1
    ∧ ∀ r, r < kFullSize →
        d_data res !! offset kFullSize r 0
        = Some (written_parameter m
                  (last_position (m_subspaceIndices m) i (Z.of_nat r)))).
  edestruct (for_range_inv scattered) as (full & Hrun & Hshape & Hall);
    [| | exists full; split; [exact Hrun |]].
  - split; [apply Zero_shape |]. intros r Hr. apply Zero_lookup; lia.
  - intros i res Hi (Hshape & Hall).
    destruct (lookup_lt_is_Some_2 (m_subspaceIndices m) i) as [z Hz];
      [unfold size in Hi; lia |].
    rewrite (sv_at_Ok _ _ _ Hz). simpl mbind at 1.
    rewrite local_parameter_read by (done || lia). simpl mbind at 1.
    destruct (index_in_range m i z Hrange Hz) as [Hlt Hback].
    destruct (dense_set_Ok res kFullSize 1 (Z.to_nat z) 0 (local_parameter m i))
      as (res' & -> & Hshape' & Hdata); [done | done | lia |].
    exists res'. split; [done |]. split; [done |].
    intros r Hr. rewrite Hdata.
    destruct (decide (r = Z.to_nat z)) as [->|Hne].
    + rewrite list_lookup_insert_eq
        by (destruct Hshape as (_ & _ & ->); apply offset_lt; lia).
      rewrite Hback. by rewrite (last_position_here _ _ _ Hz).
    + rewrite list_lookup_insert_ne
        by (intros Heq; apply offset_inj in Heq; lia).
      rewrite last_position_skip; [by apply Hall |].
      rewrite Hz. intros [= ->]. lia.
  - split; [done |]. intros r Hr.
    eapply dense_coeff_Ok; [done | done | lia |]. by apply Hall.
Qed.

Lemma fullCovariance_spec (m : Measurement) :
  well_formed m → indices_in_range m →
  ∃ full, fullCovariance m = Ok full
          ∧ dense_shape full kFullSize kFullSize
          ∧ ∀ r c, r < kFullSize → c < kFullSize →
              dense_coeff full r c
              = Ok (written_covariance m
                      (surviving_write (m_subspaceIndices m) (size m) 0
                         (Z.of_nat r) (Z.of_nat c))).
Proof.
  intros Hwf Hrange. unfold fullCovariance.
  pose (scattered := λ (i j : nat) (res : Dense),
    dense_shape res kFullSize kFullSize
    ∧ ∀ r c, r < kFullSize → c < kFullSize →
        d_data res !! offset kFullSize r c
        = Some (written_covariance m
                  (surviving_write (m_subspaceIndices m) i j
                     (Z.of_nat r) (Z.of_nat c)))).
  edestruct (for_range_inv (λ i, scattered i 0)) as (full & Hrun & Hshape & Hall);
    [| | exists full; split; [exact Hrun |]].
  - split; [apply Zero_shape |]. intros r c Hr Hc.
    rewrite surviving_write_start. by apply Zero_lookup.
  - intros i res Hi Hres.
    edestruct (for_range_inv (scattered i)) as (res' & Hrun & Hshape & Hall);
      [exact Hres | | exists res'; split; [exact Hrun |]].
    + clear res Hres. intros j res Hj (Hshape & Hall).
      destruct (lookup_lt_is_Some_2 (m_subspaceIndices m) i) as [a Ha];
        [unfold size in Hi; lia |].
      destruct (lookup_lt_is_Some_2 (m_subspaceIndices m) j) as [b Hb];
        [unfold size in Hj; lia |].
      rewrite (sv_at_Ok _ _ _ Ha). simpl mbind at 1.
      rewrite (sv_at_Ok _ _ _ Hb). simpl mbind at 1.
      rewrite local_covariance_read by (done || lia). simpl mbind at 1.
      destruct (index_in_range m i a Hrange Ha) as [Halt Haback].
      destruct (index_in_range m j b Hrange Hb) as [Hblt Hbback].
      destruct (dense_set_Ok res kFullSize kFullSize (Z.to_nat a) (Z.to_nat b)
                  (local_covariance m i j))
        as (res' & -> & Hshape' & Hdata); [done | done | done |].
      exists res'. split; [done |]. split; [done |].
      intros r c Hr Hc. rewrite Hdata.
      rewrite (surviving_write_step _ i j a b) by done.
      case_bool_decide as Hslot.
      * destruct Hslot as [<- <-]. rewrite !Nat2Z.id.
        rewrite list_lookup_insert_eq; [done |].
        destruct Hshape as (_ & _ & ->). by apply offset_lt.
      * rewrite list_lookup_insert_ne; [by apply Hall |].
        intros Heq. apply offset_inj in Heq as [<- <-]; [| done | done].
        apply Hslot. by split.
    + split; [done |]. intros r c Hr Hc.
      rewrite <- surviving_write_next_row. by apply Hall.
  - split; [done |]. intros r c Hr Hc.
    eapply dense_coeff_Ok; [done | done | done |]. by apply Hall.
Qed.

(** ** Membership and position *)

Lemma std_find_le (l : list Z) (value : Z) : std_find l value ≤ length l.
Proof.
  induction l as [|x l IH]; simpl; [done |]. case_bool_decide; lia.
Qed.

Lemma std_find_lookup (l : list Z) (value : Z) :
  std_find l value < length l → l !! std_find l value = Some value.
Proof.
  induction l as [|x l IH]; simpl; [lia |].
  case_bool_decide as Hx; simpl; [by rewrite Hx |].
  intros Hlt. apply IH. lia.
Qed.

Lemma std_find_elem (l : list Z) (value : Z) :
  std_find l value < length l ↔ value ∈ l.
Proof.
  split.
  - intros Hlt. eapply list_elem_of_lookup_2. by apply std_find_lookup.
  - induction l as [|x l IH]; simpl; [by intros ?%elem_of_nil |].
    intros [->|Hin]%elem_of_cons.
    + rewrite bool_decide_eq_true_2 by done. lia.
    + case_bool_decide; [lia |]. specialize (IH Hin). lia.
Qed.

Lemma contains_spec (m : Measurement) (i : Z) :
  contains m i = true ↔ std_find (m_subspaceIndices m) i < size m.
Proof.
  unfold contains. rewrite negb_true_iff, bool_decide_eq_false.
  pose proof (std_find_le (m_subspaceIndices m) i). unfold size. lia.
Qed.

(** C4: for every measurement and every index [i] (in particular every [i]
    of the full space), [contains(i)] is true exactly when [i] occurs in
    [subspaceIndices()], and then [indexOf(i)] returns a position at which
    [subspaceIndices()] holds [i]. *)
Theorem contains_iff_member_and_indexOf_position (m : Measurement) (i : Z) :
  (contains m i = true ↔ i ∈ subspaceIndices m)
  ∧ (contains m i = true →
     ∃ k, indexOf m i = Ok k ∧ subspaceIndices m !! k = Some i).
Proof.
  split.
  - rewrite contains_spec. apply std_find_elem.
  - intros Hin. pose proof Hin as Hlt. apply contains_spec in Hlt.
    exists (std_find (m_subspaceIndices m) i). split.
    + unfold indexOf. fold (contains m i). rewrite Hin, assert_true. done.
    + by apply std_find_lookup.
Qed.

(** C10: with assertions compiled out, [indexOf] of an index the measurement
    does not contain returns [size()], which is no position of the index
    list, so it is the position of no member. *)
Theorem indexOf_of_non_member_is_size (m : Measurement) (i : Z) :
  NDEBUG = true → contains m i = false →
  indexOf m i = Ok (size m)
  ∧ subspaceIndices m !! size m = None
  ∧ ∀ k j, subspaceIndices m !! k = Some j → indexOf m i ≠ Ok k.
Proof.
  intros Hrelease Hout.
  assert (std_find (m_subspaceIndices m) i = size m) as Hend.
  { unfold contains in Hout. rewrite negb_false_iff in Hout.
    by apply bool_decide_eq_true in Hout. }
  assert (indexOf m i = Ok (size m)) as Hret.
  { unfold indexOf, assert. rewrite Hrelease. simpl. by rewrite Hend. }
  split; [done |]. split.
  - by apply lookup_ge_None_2.
  - intros k j Hk. rewrite Hret. intros [= <-].
    apply lookup_lt_Some in Hk. unfold subspaceIndices, size in Hk. lia.
Qed.

(** With assertions enabled the same call aborts. *)
Lemma indexOf_of_non_member_aborts (m : Measurement) (i : Z) :
  NDEBUG = false → contains m i = false →
  indexOf m i = Err AssertionFailure.
Proof.
  intros Hdebug Hout. unfold indexOf. fold (contains m i).
  unfold assert. by rewrite Hdebug, Hout.
Qed.

(** ** The two kinds of view *)

Lemma map_set_then_coeff (v : EigenMap) (m : Measurement) (i j : nat)
    (x : Scalar) :
  i < map_rows v → j < map_cols v →
  map_rows v * map_cols v ≤ length (buffer m (map_data v)) →
  ∃ m', map_set v m i j x = Ok m' ∧ map_coeff v m' i j = Ok x.
Proof.
  intros Hi Hj Hfit.
  pose proof (offset_lt (map_rows v) (map_cols v) i j Hi Hj) as Hoff.
  rewrite map_set_Ok by (done || lia). eexists. split; [done |].
  unfold map_coeff. rewrite buffer_set_buffer.
  apply load_Ok; [done | done |]. apply list_lookup_insert_eq. lia.
Qed.

(** C3: on a measurement of size n, [parameters<n>()] and [parameters()]
    (and likewise [covariance<n>()] and [covariance()]) are the same view of
    the same buffer: every read through one gives what the read through the
    other gives, and a value written through either one is read back through
    the other. *)
Theorem static_and_dynamic_views_alias (m : Measurement) :
  well_formed m →
  ∃ ps cs,
    parameters_static (size m) m = Ok ps
    ∧ covariance_static (size m) m = Ok cs
    ∧ map_data ps = map_data (parameters m)
    ∧ map_data cs = map_data (covariance m)
    ∧ (∀ i, map_coeff ps m i 0 = map_coeff (parameters m) m i 0)
    ∧ (∀ i j, map_coeff cs m i j = map_coeff (covariance m) m i j)
    ∧ (∀ i x, i < size m →
         ∃ m', map_set ps m i 0 x = Ok m'
               ∧ map_coeff (parameters m) m' i 0 = Ok x)
    ∧ (∀ i x, i < size m →
         ∃ m', map_set (parameters m) m i 0 x = Ok m'
               ∧ map_coeff ps m' i 0 = Ok x)
    ∧ (∀ i j x, i < size m → j < size m →
         ∃ m', map_set cs m i j x = Ok m'
               ∧ map_coeff (covariance m) m' i j = Ok x)
    ∧ (∀ i j x, i < size m → j < size m →
         ∃ m', map_set (covariance m) m i j x = Ok m'
               ∧ map_coeff cs m' i j = Ok x).
Proof.
  intros (Hcap & _ & Hparams & Hcov).
  exists (parameters m), (covariance m).
  unfold parameters_static, covariance_static.
  rewrite bool_decide_eq_true_2, assert_true by done.
  assert (size m * size m ≤ kFullSize * kFullSize) as Hsq
    by (apply Nat.mul_le_mono; done).
  repeat split; try done.
  - intros i x Hi. apply map_set_then_coeff; simpl; [done | lia |].
    fold (size m) in Hcap. lia.
  - intros i x Hi. apply map_set_then_coeff; simpl; [done | lia |].
    fold (size m) in Hcap. lia.
  - intros i j x Hi Hj. apply map_set_then_coeff; simpl; [done | done | lia].
  - intros i j x Hi Hj. apply map_set_then_coeff; simpl; [done | done | lia].
Qed.

(** ** The padded index array *)

Lemma std_copy_Ok {A} (src dst : list A) :
  length src ≤ length dst →
  std_copy src dst = Ok (src ++ drop (length src) dst).
Proof.
  intros Hfit. unfold std_copy, std_transform.
  rewrite bool_decide_eq_true_2 by done. by rewrite list_fmap_id.
Qed.

(** C9: for the bound enumeration [boundSubsetIndices()] returns an array of
    [kFullSize] slots whose first [size()] slots are [subspaceIndices()] and
    whose other slots hold the invalid index; for any other enumeration the
    member is not available. *)
Theorem boundSubsetIndices_pads_with_invalid (m : Measurement) :
  well_formed m →
  (indices_is_BoundIndices = true →
   ∃ padded, boundSubsetIndices m = Ok padded
     ∧ length padded = kFullSize
     ∧ (∀ i, i < size m → padded !! i = subspaceIndices m !! i)
     ∧ (∀ i, size m ≤ i < kFullSize → padded !! i = Some kInvalidIndex))
  ∧ (indices_is_BoundIndices = false →
     boundSubsetIndices m = Err ConstraintNotSatisfied).
Proof.
  intros (Hcap & _). unfold boundSubsetIndices. split; intros ->; [| done].
  rewrite std_copy_Ok
    by (unfold kBoundSubspaceIndicesInvalid; by rewrite length_replicate).
  eexists. split; [done |].
  unfold kBoundSubspaceIndicesInvalid, subspaceIndices, size.
  rewrite drop_replicate. repeat split.
  - rewrite length_app, length_replicate. lia.
  - intros i Hi. by apply lookup_app_l.
  - intros i Hi. rewrite lookup_app_r by lia. apply lookup_replicate_2. lia.
Qed.

(** ** Constructed measurements *)

Lemma static_cast_SubspaceIndex_range (z : Z) :
  (0 ≤ static_cast_SubspaceIndex z < SubspaceIndex_max)%Z.
Proof. apply Z.mod_pos_bound. done. Qed.

Lemma static_cast_SubspaceIndex_small (indices : list Z) :
  Forall (λ z, (0 ≤ z < SubspaceIndex_max)%Z) indices →
  static_cast_SubspaceIndex <$> indices = indices.
Proof.
  induction 1 as [|z l Hz _ IH]; [done |]. rewrite fmap_cons, IH.
  unfold static_cast_SubspaceIndex. by rewrite Z.mod_small.
Qed.

Lemma full_space_fits (indices : list Z) :
  kFullSize ≤ 256 →
  Forall (λ z, (0 ≤ z < Z.of_nat kFullSize)%Z) indices →
  Forall (λ z, (0 ≤ z < SubspaceIndex_max)%Z) indices.
Proof.
  intros Hfits Hrange. eapply Forall_impl; [exact Hrange |].
  unfold SubspaceIndex_max. simpl. lia.
Qed.

Lemma constructed_well_formed (source : SourceLink) (indices : list Z)
    (params : MatrixExpr) (cov : MatrixExpr) (m : Measurement) :
  constructed source indices params cov m → length indices ≤ kFullSize →
  well_formed m.
Proof.
  intros (_ & Hidx & Hp & Hc & _) Hcap. repeat split; [| | done | done].
  - by rewrite Hidx, length_fmap.
  - rewrite Hidx. apply Forall_fmap, Forall_true.
    intros z. apply static_cast_SubspaceIndex_range.
Qed.

(** A measurement constructed from indices of the full space, when
    [SubspaceIndex] can hold them. *)
Lemma constructed_in_range (source : SourceLink) (indices : list Z)
    (params : MatrixExpr) (cov : MatrixExpr) (m : Measurement) :
  kFullSize ≤ 256 →
  Forall (λ z, (0 ≤ z < Z.of_nat kFullSize)%Z) indices →
  construct source indices params cov = Ok m →
  constructed source indices params cov m
  ∧ m_subspaceIndices m = indices
  ∧ size m = length indices
  ∧ well_formed m
  ∧ indices_in_range m.
Proof.
  intros Hfits Hrange Hrun.
  destruct (construct_Ok _ _ _ _ _ Hrun) as [Hm Hcap].
  assert (m_subspaceIndices m = indices) as Hidx.
  { destruct Hm as (_ & -> & _).
    by apply static_cast_SubspaceIndex_small, full_space_fits. }
  split; [done |]. split; [done |]. split; [unfold size; by rewrite Hidx |].
  split; [by eapply constructed_well_formed |].
  unfold indices_in_range. by rewrite Hidx.
Qed.

(** C1: a measurement constructed from unique indices of the full space,
    values p and a covariance expands to a full vector that holds p[k] in
    slot idx[k] for every k and zero in every slot that is not one of the
    indices. *)
Theorem fullParameters_round_trip (source : SourceLink) (indices : list Z)
    (params : MatrixExpr) (cov : MatrixExpr) (m : Measurement) :
  kFullSize ≤ 256 →
  NoDup indices →
  Forall (λ z, (0 ≤ z < Z.of_nat kFullSize)%Z) indices →
  construct source indices params cov = Ok m →
  ∃ full, fullParameters m = Ok full
    ∧ d_rows full = kFullSize ∧ d_cols full = 1
    ∧ (∀ k z, indices !! k = Some z →
         dense_coeff full (Z.to_nat z) 0 = Ok (mat_coeff params k 0))
    ∧ (∀ j, j < kFullSize → Z.of_nat j ∉ indices →
         dense_coeff full j 0 = Ok zero).
Proof.
  intros Hfits Hnodup Hrange Hrun.
  destruct (constructed_in_range _ _ _ _ _ Hfits Hrange Hrun)
    as ((_ & _ & _ & _ & Hp & _) & Hidx & Hsize & Hwf & Hin).
  destruct (fullParameters_spec m Hwf Hin) as (full & Hfull & Hshape & Hall).
  exists full. split; [done |].
  split; [apply Hshape |]. split; [apply Hshape |]. rewrite Hidx, Hsize in Hall.
  split.
  - intros k z Hk.
    destruct (index_in_range m k z Hin) as [Hlt Hback]; [by rewrite Hidx |].
    pose proof (lookup_lt_Some _ _ _ Hk) as Hklt.
    rewrite Hall, Hback by done.
    rewrite (last_position_NoDup _ _ _ k) by done. simpl.
    unfold local_parameter. by rewrite Hp.
  - intros j Hj Hnot. rewrite Hall by done.
    by rewrite last_position_not_elem.
Qed.

(** C2: the same measurement expands to a full matrix that holds C[k][l] in
    slot (idx[k], idx[l]) for all k and l and zero in every row and every
    column that is not one of the indices. *)
Theorem fullCovariance_round_trip (source : SourceLink) (indices : list Z)
    (params : MatrixExpr) (cov : MatrixExpr) (m : Measurement) :
  kFullSize ≤ 256 →
  NoDup indices →
  Forall (λ z, (0 ≤ z < Z.of_nat kFullSize)%Z) indices →
  construct source indices params cov = Ok m →
  ∃ full, fullCovariance m = Ok full
    ∧ d_rows full = kFullSize ∧ d_cols full = kFullSize
    ∧ (∀ k l a b, indices !! k = Some a → indices !! l = Some b →
         dense_coeff full (Z.to_nat a) (Z.to_nat b) = Ok (mat_coeff cov k l))
    ∧ (∀ r c, r < kFullSize → c < kFullSize →
         Z.of_nat r ∉ indices ∨ Z.of_nat c ∉ indices →
         dense_coeff full r c = Ok zero).
Proof.
  intros Hfits Hnodup Hrange Hrun.
  destruct (constructed_in_range _ _ _ _ _ Hfits Hrange Hrun)
    as ((_ & _ & _ & _ & _ & Hc) & Hidx & Hsize & Hwf & Hin).
  destruct (fullCovariance_spec m Hwf Hin) as (full & Hfull & Hshape & Hall).
  exists full. split; [done |].
  split; [apply Hshape |]. split; [apply Hshape |].
  unfold size in Hall. rewrite Hidx in Hall.
  setoid_rewrite surviving_write_end in Hall.
  split.
  - intros k l a b Hk Hl.
    destruct (index_in_range m k a Hin) as [Halt Haback]; [by rewrite Hidx |].
    destruct (index_in_range m l b Hin) as [Hblt Hbback]; [by rewrite Hidx |].
    pose proof (lookup_lt_Some _ _ _ Hk) as Hklt.
    pose proof (lookup_lt_Some _ _ _ Hl) as Hllt.
    rewrite Hall, Haback, Hbback by done.
    rewrite (last_position_NoDup _ _ _ k), (last_position_NoDup _ _ _ l)
      by done.
    simpl. unfold local_covariance. rewrite Hsize. by rewrite Hc.
  - intros r c Hr Hc' Hnot. rewrite Hall by done.
    destruct Hnot as [Hnot|Hnot]; rewrite (last_position_not_elem _ _ _ Hnot).
    + done.
    + by destruct (last_position indices (length indices) (Z.of_nat r)).
Qed.

(** C8: when the local covariance of a measurement is symmetric, so is the
    matrix [fullCovariance()] returns. *)
Theorem fullCovariance_symmetric (m : Measurement) :
  well_formed m → indices_in_range m →
  (∀ k l, k < size m → l < size m →
     map_coeff (covariance m) m k l = map_coeff (covariance m) m l k) →
  ∃ full, fullCovariance m = Ok full
    ∧ ∀ r c, r < kFullSize → c < kFullSize →
        dense_coeff full r c = dense_coeff full c r.
Proof.
  intros Hwf Hin Hsym.
  destruct (fullCovariance_spec m Hwf Hin) as (full & Hfull & _ & Hall).
  exists full. split; [done |]. intros r c Hr Hc.
  rewrite !Hall by done. f_equal. rewrite !surviving_write_end.
  destruct (last_position _ _ (Z.of_nat r)) as [k|] eqn:Hk;
    destruct (last_position _ _ (Z.of_nat c)) as [l|] eqn:Hl; try done.
  apply last_position_Some in Hk as [Hk _], Hl as [Hl _].
  specialize (Hsym k l Hk Hl).
  rewrite !local_covariance_read in Hsym by done. by injection Hsym.
Qed.

(** C7: the helper forwards one required index and the further ones, in
    order, to the constructor. A measurement it returns has as many indices
    as were supplied, [size()] is the length of [subspaceIndices()], and the
    index list is the supplied indices in the supplied order (each converted
    to [SubspaceIndex], which changes none that is representable). It
    returns a measurement whenever the parameters are a vector of that many
    rows (one column), the covariance has that many rows and columns, and
    the indices fit the capacity. *)
Theorem makeVariableSizeMeasurement_keeps_indices (source : SourceLink)
    (params : MatrixExpr) (cov : MatrixExpr) (index0 : Z)
    (tailIndices : list Z) :
  (∀ m,
     makeVariableSizeMeasurement source params cov index0 tailIndices = Ok m →
     size m = 1 + length tailIndices
     ∧ size m = length (subspaceIndices m)
     ∧ subspaceIndices m
       = static_cast_SubspaceIndex <$> index0 :: tailIndices
     ∧ (Forall (λ z, (0 ≤ z < SubspaceIndex_max)%Z) (index0 :: tailIndices) →
        subspaceIndices m = index0 :: tailIndices))
  ∧ (mat_rows params = Fixed (1 + length tailIndices) →
     at_run_time (mat_cols params) = 1 →
     mat_rows cov = Fixed (1 + length tailIndices) →
     mat_cols cov = Fixed (1 + length tailIndices) →
     1 + length tailIndices ≤ kFullSize →
     ∃ m, makeVariableSizeMeasurement source params cov index0 tailIndices
          = Ok m).
Proof.
  unfold makeVariableSizeMeasurement. split.
  - intros m [(_ & Hidx & _) _]%construct_Ok.
    unfold size, subspaceIndices. rewrite Hidx.
    split; [by rewrite length_fmap |]. split; [done |]. split; [done |].
    apply static_cast_SubspaceIndex_small.
  - intros Hp Hone Hr Hc Hcap.
    destruct (construct_spec source (index0 :: tailIndices) params cov)
      as (m & Hrun & _); try done.
    + by apply one_column_accepted.
    + by exists m.
Qed.

(** ** Shapes are checked when the program is built *)

Lemma construct_static_assertion (source : SourceLink) (indices : list Z)
    (params : MatrixExpr) (cov : MatrixExpr) :
  (mat_rows params ≠ Fixed (length indices) →
   construct source indices params cov
   = Err (StaticAssertion ParameterSizeMismatch))
  ∧ (mat_rows params = Fixed (length indices) →
     mat_rows cov ≠ Fixed (length indices) →
     construct source indices params cov
     = Err (StaticAssertion CovarianceRowsMismatch))
  ∧ (mat_rows params = Fixed (length indices) →
     mat_rows cov = Fixed (length indices) →
     mat_cols cov ≠ Fixed (length indices) →
     construct source indices params cov
     = Err (StaticAssertion CovarianceColsMismatch)).
Proof.
  assert (∀ d, d ≠ Fixed (length indices) →
               static_size_is (length indices) d = false) as Hno.
  { intros d Hd. apply not_true_is_false. by rewrite static_size_is_Fixed. }
  pose proof (proj2 (static_size_is_Fixed (length indices) _) eq_refl) as Hyes.
  unfold construct. repeat split.
  - intros Hp. by rewrite (Hno _ Hp).
  - intros -> Hr. by rewrite Hyes, (Hno _ Hr).
  - intros -> -> Hc. by rewrite Hyes, (Hno _ Hc).
Qed.

(** C5, as the code has it: the constructor takes the number of values and
    the two dimensions of the covariance from the types of its arguments, so
    a vector whose row count, or a covariance whose row or column count,
    differs from the number of indices, or is known only at run time, is
    refused by a [static_assert] when the program is built. The constructor
    has no shape error the caller can catch: its only catchable failure is
    the capacity overflow of the index vector, which needs those counts to
    match. A measurement that is returned has the supplied number of
    indices, and the row count of the values and both dimensions of the
    covariance are that number. *)
Theorem construct_checks_shapes_statically (source : SourceLink)
    (indices : list Z) (params : MatrixExpr) (cov : MatrixExpr) :
  (mat_rows params ≠ Fixed (length indices) →
   construct source indices params cov
   = Err (StaticAssertion ParameterSizeMismatch))
  ∧ (mat_rows params = Fixed (length indices) →
     mat_rows cov ≠ Fixed (length indices) →
     construct source indices params cov
     = Err (StaticAssertion CovarianceRowsMismatch))
  ∧ (mat_rows params = Fixed (length indices) →
     mat_rows cov = Fixed (length indices) →
     mat_cols cov ≠ Fixed (length indices) →
     construct source indices params cov
     = Err (StaticAssertion CovarianceColsMismatch))
  ∧ (∀ f, construct source indices params cov = Err f → catchable f = true →
       f = CapacityExceeded
       ∧ mat_rows params = Fixed (length indices)
       ∧ mat_rows cov = Fixed (length indices)
       ∧ mat_cols cov = Fixed (length indices))
  ∧ (∀ m, construct source indices params cov = Ok m →
       size m = length indices
       ∧ mat_rows params = Fixed (size m)
       ∧ mat_rows cov = Fixed (size m)
       ∧ mat_cols cov = Fixed (size m)).
Proof.
  destruct (construct_static_assertion source indices params cov)
    as (Hparams & Hrows & Hcols).
  split; [done |]. split; [done |]. split; [done |]. split.
  - intros f Hrun Hcatch.
    assert (f = CapacityExceeded) as -> by (by destruct f).
    split; [done |].
    destruct (decide (mat_rows params = Fixed (length indices))) as [Hp|Hp];
      [| by rewrite (Hparams Hp) in Hrun].
    destruct (decide (mat_rows cov = Fixed (length indices))) as [Hr|Hr];
      [| by rewrite (Hrows Hp Hr) in Hrun].
    destruct (decide (mat_cols cov = Fixed (length indices))) as [Hc|Hc];
      [| by rewrite (Hcols Hp Hr Hc) in Hrun].
    done.
  - intros m Hrun.
    destruct (construct_Ok_inv _ _ _ _ _ Hrun) as (Hp & _ & Hr & Hc & _).
    apply construct_Ok in Hrun as [(_ & Hidx & _) _].
    assert (size m = length indices) as ->
      by (unfold size; by rewrite Hidx, length_fmap).
    done.
Qed.

(** ** Every measurement a program can hold is well formed *)

Lemma construct_well_formed (source : SourceLink) (indices : list Z)
    (params : MatrixExpr) (cov : MatrixExpr) (m : Measurement) :
  construct source indices params cov = Ok m → well_formed m.
Proof.
  intros [Hm Hcap]%construct_Ok. by eapply constructed_well_formed.
Qed.

Lemma map_set_well_formed (v : EigenMap) (m m' : Measurement) (i j : nat)
    (x : Scalar) :
  well_formed m → map_set v m i j x = Ok m' → well_formed m'.
Proof.
  intros (Hcap & Hsmall & Hp & Hc). unfold map_set, store.
  intros (data & Hstore & [= <-])%bind_Ok.
  apply bind_Ok in Hstore as (_ & _ & Hstore).
  case_bool_decide; [| done]. injection Hstore as <-.
  destruct (map_data v); repeat split; simpl; try done;
    by rewrite length_insert.
Qed.

Lemma mutate_well_formed (op : Mutation) (m m' : Measurement) :
  well_formed m →
  (∀ other, op = Assign other → well_formed other) →
  mutate op m = Ok m' → well_formed m'.
Proof.
  intros Hwf Hother.
  destruct op as [[dim|] i x|[dim|] i j x|other]; simpl.
  - intros (v & _ & Hset)%bind_Ok. by eapply map_set_well_formed.
  - by apply map_set_well_formed.
  - intros (v & _ & Hset)%bind_Ok. by eapply map_set_well_formed.
  - by apply map_set_well_formed.
  - intros [= <-]. by apply Hother.
Qed.

(** ** The index set *)

Lemma map_set_indices (v : EigenMap) (m m' : Measurement) (i j : nat)
    (x : Scalar) :
  map_set v m i j x = Ok m' → m_subspaceIndices m' = m_subspaceIndices m.
Proof.
  unfold map_set. intros (data & _ & [= <-])%bind_Ok. by destruct (map_data v).
Qed.

Lemma mutate_indices (op : Mutation) (m m' : Measurement) :
  mutate op m = Ok m' →
  match op with
  | Assign other => m' = other
  | _ => subspaceIndices m' = subspaceIndices m
  end.
Proof.
  destruct op as [[dim|] i x|[dim|] i j x|other]; simpl.
  - intros (v & _ & Hset)%bind_Ok. by eapply map_set_indices.
  - apply map_set_indices.
  - intros (v & _ & Hset)%bind_Ok. by eapply map_set_indices.
  - apply map_set_indices.
  - by intros [= <-].
Qed.

(** C6, as the code has it: the constructor stores the supplied indices,
    converted to [SubspaceIndex], without checking them. The stored index set
    has no duplicate and only indices below the full dimension when the
    supplied indices are such (and [SubspaceIndex] can hold every index of
    the full space). No write through a view changes the index set, and an
    assignment replaces the measurement by the assigned one, so every
    operation keeps the invariant. *)
Theorem index_set_invariant_is_the_callers :
  (∀ source indices params cov m,
     construct source indices params cov = Ok m →
     subspaceIndices m = static_cast_SubspaceIndex <$> indices
     ∧ (kFullSize ≤ 256 → NoDup indices →
        Forall (λ z, (0 ≤ z < Z.of_nat kFullSize)%Z) indices →
        index_set_invariant m))
  ∧ (∀ op m m',
       mutate op m = Ok m' →
       match op with
       | Assign other => m' = other
       | _ => subspaceIndices m' = subspaceIndices m
       end)
  ∧ (∀ op m m',
       mutate op m = Ok m' →
       index_set_invariant m →
       (∀ other, op = Assign other → index_set_invariant other) →
       index_set_invariant m').
Proof.
  split; [| split].
  - intros source indices params cov m Hrun. split.
    + by apply construct_Ok in Hrun as [(_ & Hidx & _) _].
    + intros Hfits Hnodup Hrange.
      destruct (constructed_in_range _ _ _ _ _ Hfits Hrange Hrun)
        as (_ & Hidx & _ & _ & Hin).
      split; [by rewrite Hidx | done].
  - apply mutate_indices.
  - intros op m m' Hrun Hinv Hother. apply mutate_indices in Hrun.
    destruct op as [dim i x|dim i j x|other].
    + unfold index_set_invariant, indices_in_range, subspaceIndices in *.
      by rewrite Hrun.
    + unfold index_set_invariant, indices_in_range, subspaceIndices in *.
      by rewrite Hrun.
    + subst m'. by apply Hother.
Qed.

End Proofs.

(** ** The scenario of the bound space, evaluated *)

Import Scenario.

Example two_dim_constructed :
  construct (Inst := bound) (Bld := debug) tt [0; 2]%Z values cov = Ok two_dim.
Proof. vm_compute. reflexivity. Qed.

Example two_dim_fullParameters :
  fullParameters (Inst := bound) (Bld := debug) two_dim
  = Ok (@Build_Dense bound 6 1
          [Qmake 3 2; Qmake 0 1; Qmake (-3) 10; Qmake 0 1; Qmake 0 1;
           Qmake 0 1]).
Proof. vm_compute. reflexivity. Qed.

Example two_dim_fullCovariance :
  fullCovariance (Inst := bound) (Bld := debug) two_dim
  = Ok (@Build_Dense bound 6 6
          (<[0 := Qmake 1 10]> (<[14 := Qmake 2 10]>
             (replicate 36 (Qmake 0 1))))).
Proof. vm_compute. reflexivity. Qed.

Lemma two_dim_well_formed : well_formed (Inst := bound) two_dim.
Proof.
  repeat split; simpl; try lia.
  repeat constructor; unfold SubspaceIndex_max; lia.
Defined.

Lemma two_dim_in_range : indices_in_range (Inst := bound) two_dim.
Proof. repeat constructor; simpl; lia. Defined.

Lemma two_indices_NoDup : NoDup [0; 2]%Z.
Proof. apply (bool_decide_unpack _). vm_compute. reflexivity. Defined.

Lemma two_indices_in_range :
  Forall (λ z, (0 ≤ z < Z.of_nat (kFullSize (Instantiation := bound)))%Z)
    [0; 2]%Z.
Proof. repeat constructor; simpl; lia. Defined.

Lemma fullParameters_round_trip_witness :
  ∃ full, fullParameters (Inst := bound) (Bld := debug) two_dim = Ok full
    ∧ d_rows full = 6 ∧ d_cols full = 1
    ∧ (∀ k z, [0; 2]%Z !! k = Some z →
         dense_coeff (Bld := debug) full (Z.to_nat z) 0
         = Ok (mat_coeff values k 0))
    ∧ (∀ j, j < 6 → Z.of_nat j ∉ [0; 2]%Z →
         dense_coeff (Bld := debug) full j 0 = Ok (Qmake 0 1)).
Proof.
  apply (fullParameters_round_trip (Inst := bound) (Bld := debug)
           tt [0; 2]%Z values cov two_dim).
  - simpl. lia.
  - exact two_indices_NoDup.
  - exact two_indices_in_range.
  - vm_compute. reflexivity.
Defined.

Lemma fullCovariance_round_trip_witness :
  ∃ full, fullCovariance (Inst := bound) (Bld := debug) two_dim = Ok full
    ∧ d_rows full = 6 ∧ d_cols full = 6
    ∧ (∀ k l a b, [0; 2]%Z !! k = Some a → [0; 2]%Z !! l = Some b →
         dense_coeff (Bld := debug) full (Z.to_nat a) (Z.to_nat b)
         = Ok (mat_coeff cov k l))
    ∧ (∀ r c, r < 6 → c < 6 →
         Z.of_nat r ∉ [0; 2]%Z ∨ Z.of_nat c ∉ [0; 2]%Z →
         dense_coeff (Bld := debug) full r c = Ok (Qmake 0 1)).
Proof.
  apply (fullCovariance_round_trip (Inst := bound) (Bld := debug)
           tt [0; 2]%Z values cov two_dim).
  - simpl. lia.
  - exact two_indices_NoDup.
  - exact two_indices_in_range.
  - vm_compute. reflexivity.
Defined.

Lemma static_and_dynamic_views_alias_witness :
  ∃ ps cs,
    parameters_static (Inst := bound) (Bld := debug) 2 two_dim = Ok ps
    ∧ covariance_static (Inst := bound) (Bld := debug) 2 two_dim = Ok cs
    ∧ (∃ m', map_set (Bld := debug) ps two_dim 1 0 (Qmake 7 1) = Ok m'
             ∧ map_coeff (Bld := debug) (parameters two_dim) m' 1 0
               = Ok (Qmake 7 1))
    ∧ (∃ m', map_set (Bld := debug) (covariance two_dim) two_dim 0 1
               (Qmake 7 1) = Ok m'
             ∧ map_coeff (Bld := debug) cs m' 0 1 = Ok (Qmake 7 1)).
Proof.
  destruct (static_and_dynamic_views_alias (Inst := bound) (Bld := debug)
              two_dim two_dim_well_formed)
    as (ps & cs & Hps & Hcs & _ & _ & _ & _ & Hwrite & _ & _ & Hcov).
  exists ps, cs. split; [exact Hps |]. split; [exact Hcs |]. split.
  - apply Hwrite. unfold size. simpl. lia.
  - apply Hcov; unfold size; simpl; lia.
Defined.

Lemma indexOf_of_non_member_is_size_witness :
  indexOf (Inst := bound) (Bld := release) two_dim 3%Z = Ok 2
  ∧ subspaceIndices two_dim !! 2 = None
  ∧ ∀ k j, subspaceIndices two_dim !! k = Some j →
           indexOf (Inst := bound) (Bld := release) two_dim 3%Z ≠ Ok k.
Proof.
  apply (indexOf_of_non_member_is_size (Inst := bound) (Bld := release)
           two_dim 3%Z); reflexivity.
Defined.

Lemma makeVariableSizeMeasurement_keeps_indices_witness :
  ∃ m, makeVariableSizeMeasurement (Inst := bound) (Bld := debug)
         tt values cov 0%Z [2%Z] = Ok m
    ∧ size m = 2
    ∧ size m = length (subspaceIndices m)
    ∧ subspaceIndices m = [0; 2]%Z.
Proof.
  destruct (makeVariableSizeMeasurement_keeps_indices (Inst := bound)
              (Bld := debug) tt values cov 0%Z [2%Z]) as [Hret Hruns].
  destruct Hruns as [m Hm];
    [reflexivity | reflexivity | reflexivity | reflexivity | |].
  - simpl. lia.
  - exists m. split; [exact Hm |].
    destruct (Hret m Hm) as (Hsize & Hlen & _ & Hsame).
    split; [exact Hsize |]. split; [exact Hlen |].
    apply Hsame. repeat constructor; unfold SubspaceIndex_max; lia.
Defined.

Lemma fullCovariance_symmetric_witness :
  ∃ full, fullCovariance (Inst := bound) (Bld := debug) two_dim = Ok full
    ∧ ∀ r c, r < 6 → c < 6 →
        dense_coeff (Bld := debug) full r c
        = dense_coeff (Bld := debug) full c r.
Proof.
  apply (fullCovariance_symmetric (Inst := bound) (Bld := debug) two_dim
           two_dim_well_formed two_dim_in_range).
  intros [|[|k]] [|[|l]] Hk Hl; simpl in Hk, Hl; try lia; reflexivity.
Defined.

Lemma boundSubsetIndices_pads_with_invalid_witness :
  (indices_is_BoundIndices (Instantiation := bound) = true →
   ∃ padded, boundSubsetIndices (Inst := bound) two_dim = Ok padded
     ∧ length padded = 6
     ∧ (∀ i, i < 2 → padded !! i = subspaceIndices two_dim !! i)
     ∧ (∀ i, 2 ≤ i < 6 → padded !! i = Some 6%Z))
  ∧ (indices_is_BoundIndices (Instantiation := bound) = false →
     boundSubsetIndices (Inst := bound) two_dim = Err ConstraintNotSatisfied).
Proof.
  exact (boundSubsetIndices_pads_with_invalid (Inst := bound) two_dim
           two_dim_well_formed).
Defined.

Example unbound_has_no_boundSubsetIndices :
  boundSubsetIndices
    (@Build_Measurement unbound tt [1%Z] (replicate 8 (Qmake 0 1))
       (replicate 64 (Qmake 0 1)))
  = Err ConstraintNotSatisfied.
Proof. reflexivity. Qed.

(** ** Where the code departs from the specification *)

(** A vector of three values whose length is known only at run time, given
    with two indices: the constructor does not report an error the caller
    can catch, the [static_assert] refuses the program. The same happens to
    the two values, which fit, once their length is known only at run time. *)
Lemma run_time_sizes_are_refused_statically :
  construct (Inst := bound) (Bld := debug) tt [0; 2]%Z three_values cov
  = Err (StaticAssertion ParameterSizeMismatch)
  ∧ catchable (StaticAssertion ParameterSizeMismatch) = false
  ∧ construct (Inst := bound) (Bld := debug) tt [0; 2]%Z dynamic_values cov
    = Err (StaticAssertion ParameterSizeMismatch).
Proof. repeat split. Qed.

(** The constructor accepts an index twice, and an index outside the full
    space: both measurements are built and break the invariant. *)
Lemma constructor_accepts_invalid_index_sets :
  (∃ m, construct (Inst := bound) (Bld := debug) tt [0; 0]%Z values cov = Ok m
        ∧ ¬ NoDup (subspaceIndices m)
        ∧ ¬ index_set_invariant m)
  ∧ (∃ m, construct (Inst := bound) (Bld := debug) tt [0; 7]%Z values cov
          = Ok m
          ∧ ¬ indices_in_range m
          ∧ ¬ index_set_invariant m).
Proof.
  split.
  - eexists. split; [vm_compute; reflexivity |].
    assert (¬ NoDup [0; 0]%Z) as Hdup.
    { intros Hnodup. apply NoDup_cons in Hnodup as [Hnot _].
      apply Hnot. left. }
    split; [exact Hdup |]. intros [Hnodup _]. by apply Hdup.
  - eexists. split; [vm_compute; reflexivity |].
    assert (¬ Forall (λ z, (0 ≤ z < 6)%Z) [0; 7]%Z) as Hout.
    { intros Hall. apply Forall_cons in Hall as [_ Hall].
      apply Forall_cons in Hall as [Hseven _]. lia. }
    split; [exact Hout |]. intros [_ Hall]. by apply Hout.
Qed.

(** ** Further properties of the code *)

Section Further.
Context `{Inst : Instantiation} `{Bld : Build}.

(** *** Construction *)

(** The views of a constructed measurement read the constructor's
    arguments: [parameters()[k]] is [params[k]] and [covariance()(k, l)] is
    [cov(k, l)], whatever the indices are. *)
Theorem constructed_views_read_arguments (source : SourceLink)
    (indices : list Z) (params : MatrixExpr) (cov : MatrixExpr)
    (m : Measurement) :
  construct source indices params cov = Ok m →
  sourceLink m = source
  ∧ size m = length indices
  ∧ (∀ k, k < length indices →
       map_coeff (parameters m) m k 0 = Ok (mat_coeff params k 0))
  ∧ (∀ k l, k < length indices → l < length indices →
       map_coeff (covariance m) m k l = Ok (mat_coeff cov k l)).
Proof.
  intros [Hm Hcap]%construct_Ok.
  pose proof (constructed_well_formed _ _ _ _ _ Hm Hcap) as Hwf.
  destruct Hm as (Hsrc & Hidx & _ & _ & Hp & Hc).
  assert (size m = length indices) as Hsize
    by (unfold size; by rewrite Hidx, length_fmap).
  split; [done |]. split; [done |]. split.
  - intros k Hk. rewrite local_parameter_read by (done || lia).
    unfold local_parameter. by rewrite Hp.
  - intros k l Hk Hl. rewrite local_covariance_read by (done || lia).
    unfold local_covariance. rewrite Hsize. by rewrite Hc.
Qed.

(** The constructor returns a measurement exactly when the values have as
    many rows as there are indices, by their type, and can be assigned to a
    view of one column; the covariance has that many rows and columns, by
    its type; and the indices fit the capacity. With those types in order
    and too many indices the index vector overflows. *)
Theorem construct_succeeds_iff_shapes_and_capacity (source : SourceLink)
    (indices : list Z) (params : MatrixExpr) (cov : MatrixExpr) :
  ((∃ m, construct source indices params cov = Ok m) ↔
   mat_rows params = Fixed (length indices)
   ∧ parameter_columns_accepted (length indices) (mat_cols params)
   ∧ mat_rows cov = Fixed (length indices)
   ∧ mat_cols cov = Fixed (length indices)
   ∧ length indices ≤ kFullSize)
  ∧ (mat_rows params = Fixed (length indices) →
     (length indices = 0 ∨ mat_cols params = Fixed 1
      ∨ ∃ c, mat_cols params = Dynamic c) →
     mat_rows cov = Fixed (length indices) →
     mat_cols cov = Fixed (length indices) →
     kFullSize < length indices →
     construct source indices params cov = Err CapacityExceeded).
Proof.
  split; [split |].
  - intros [m Hrun]. by eapply construct_Ok_inv.
  - intros (Hp & Hcols & Hr & Hc & Hcap).
    destruct (construct_spec source indices params cov Hp Hcols Hr Hc Hcap)
      as (m & Hrun & _).
    by exists m.
  - apply construct_capacity.
Qed.

(** The column count of the values is not among the [static_assert]s. Values
    with the right number of rows and a column count known only at run time
    reach the assignment: with assertions enabled the constructor stops at
    Eigen's size assertion unless there is exactly one column; with
    assertions compiled out it keeps the first column of however many there
    are, and reads outside the values when there is none. *)
Theorem constructor_checks_columns_at_the_assignment (source : SourceLink)
    (indices : list Z) (params : MatrixExpr) (cov : MatrixExpr) (c : nat) :
  mat_rows params = Fixed (length indices) →
  mat_cols params = Dynamic c →
  mat_rows cov = Fixed (length indices) →
  mat_cols cov = Fixed (length indices) →
  1 ≤ length indices ≤ kFullSize →
  (NDEBUG = false → c ≠ 1 →
   construct source indices params cov = Err AssertionFailure)
  ∧ (NDEBUG = true → 1 ≤ c →
     ∃ m, construct source indices params cov = Ok m
          ∧ size m = length indices
          ∧ ∀ k, k < length indices →
              map_coeff (parameters m) m k 0 = Ok (mat_coeff params k 0))
  ∧ (NDEBUG = true → c = 0 →
     construct source indices params cov = Err UndefinedBehaviour).
Proof.
  intros Hp Hcols Hr Hc [Hone Hcap].
  assert (length indices = 0 ∨ mat_cols params = Fixed 1
          ∨ ∃ c, mat_cols params = Dynamic c) as Hstatic
    by (right; right; by exists c).
  split; [| split].
  - intros Hdebug Hc1. rewrite construct_allocated by done.
    unfold map_assign, assert. rewrite Hdebug, Hp, Hcols. simpl.
    by rewrite (bool_decide_eq_false_2 (1 = c)), andb_false_r by done.
  - intros Hrelease Hc1.
    destruct (construct_spec source indices params cov) as (m & Hrun & Hm);
      try done.
    { split; [done |]. rewrite Hrelease, Hcols. simpl. by right. }
    exists m. split; [done |].
    pose proof (constructed_well_formed _ _ _ _ _ Hm Hcap) as Hwf.
    destruct Hm as (_ & Hidx & _ & _ & Hvalues & _).
    assert (size m = length indices) as Hsize
      by (unfold size; by rewrite Hidx, length_fmap).
    split; [done |]. intros k Hk.
    rewrite local_parameter_read by (done || lia).
    unfold local_parameter. by rewrite Hvalues.
  - intros Hrelease ->. rewrite construct_allocated by done.
    unfold map_assign, assert. rewrite Hrelease. simpl mbind at 1.
    destruct (length indices) as [|n]; [lia |]. simpl.
    unfold expr_coeff. rewrite Hcols. simpl.
    by rewrite andb_false_r.
Qed.

(** *** Position lookup *)

Lemma std_find_first (l : list Z) (value : Z) (k : nat) :
  k < std_find l value → l !! k ≠ Some value.
Proof.
  revert k. induction l as [|x l IH]; simpl; [lia |].
  case_bool_decide as Hx; [lia |].
  intros [|k] Hk; simpl; [congruence |]. apply IH. lia.
Qed.

(** [indexOf] of a member returns the first position at which the index
    list holds it. *)
Theorem indexOf_is_first_position (m : Measurement) (i : Z) :
  contains m i = true →
  ∃ k, indexOf m i = Ok k
       ∧ subspaceIndices m !! k = Some i
       ∧ ∀ k', k' < k → subspaceIndices m !! k' ≠ Some i.
Proof.
  intros Hin. pose proof Hin as Hlt. apply contains_spec in Hlt.
  exists (std_find (m_subspaceIndices m) i). split; [| split].
  - unfold indexOf. fold (contains m i). by rewrite Hin, assert_true.
  - by apply std_find_lookup.
  - intros k' Hk'. by apply std_find_first.
Qed.

(** When no index occurs twice, [indexOf] inverts [subspaceIndices()]: the
    index at position k is found at position k. *)
Theorem indexOf_inverts_subspaceIndices (m : Measurement) (k : nat) (i : Z) :
  NoDup (subspaceIndices m) →
  subspaceIndices m !! k = Some i →
  contains m i = true ∧ indexOf m i = Ok k.
Proof.
  intros Hnodup Hk.
  assert (contains m i = true) as Hin.
  { apply contains_spec, std_find_elem. by eapply list_elem_of_lookup_2. }
  split; [done |].
  pose proof Hin as Hlt. apply contains_spec in Hlt.
  unfold indexOf. fold (contains m i). rewrite Hin, assert_true. simpl.
  unfold mret, result_ret. f_equal.
  eapply NoDup_lookup; [exact Hnodup | | exact Hk].
  by apply std_find_lookup.
Qed.

(** *** The expansions on any measurement *)

Lemma last_position_last (indices : list Z) (bound : nat) (index : Z) (k : nat) :
  indices !! k = Some index → k < bound →
  (∀ k', k < k' → indices !! k' ≠ Some index) →
  last_position indices bound index = Some k.
Proof.
  intros Hk Hlt Hlast. induction bound as [|bound IH]; [lia |].
  destruct (decide (k = bound)) as [->|Hne].
  - by apply last_position_here.
  - rewrite last_position_skip by (apply Hlast; lia). apply IH. lia.
Qed.

(** [fullParameters()] on a measurement whose indices address the full
    space, unique or not: the slot of an index holds the local value of the
    last position at which the index occurs (the later write replaces the
    earlier one), and every slot that is no index holds zero. *)
Theorem fullParameters_last_occurrence_wins (m : Measurement) :
  well_formed m → indices_in_range m →
  ∃ full, fullParameters m = Ok full
    ∧ d_rows full = kFullSize ∧ d_cols full = 1
    ∧ (∀ k z, subspaceIndices m !! k = Some z →
         (∀ k', k < k' → subspaceIndices m !! k' ≠ Some z) →
         dense_coeff full (Z.to_nat z) 0 = map_coeff (parameters m) m k 0)
    ∧ (∀ j, j < kFullSize → Z.of_nat j ∉ subspaceIndices m →
         dense_coeff full j 0 = Ok zero).
Proof.
  intros Hwf Hin.
  destruct (fullParameters_spec m Hwf Hin) as (full & Hfull & Hshape & Hall).
  exists full. split; [done |].
  split; [apply Hshape |]. split; [apply Hshape |]. split.
  - intros k z Hk Hlast.
    destruct (index_in_range m k z Hin Hk) as [Hlt Hback].
    pose proof (lookup_lt_Some _ _ _ Hk) as Hklt.
    rewrite Hall, Hback by done.
    rewrite (last_position_last _ _ _ k) by done.
    by rewrite local_parameter_read.
  - intros j Hj Hnot. rewrite Hall by done.
    by rewrite last_position_not_elem.
Qed.

(** [fullCovariance()] likewise: the slot of two indices holds the local
    covariance of their last positions, and every row and column that is no
    index holds zero. *)
Theorem fullCovariance_last_occurrence_wins (m : Measurement) :
  well_formed m → indices_in_range m →
  ∃ full, fullCovariance m = Ok full
    ∧ d_rows full = kFullSize ∧ d_cols full = kFullSize
    ∧ (∀ k l a b,
         subspaceIndices m !! k = Some a →
         subspaceIndices m !! l = Some b →
         (∀ k', k < k' → subspaceIndices m !! k' ≠ Some a) →
         (∀ l', l < l' → subspaceIndices m !! l' ≠ Some b) →
         dense_coeff full (Z.to_nat a) (Z.to_nat b)
         = map_coeff (covariance m) m k l)
    ∧ (∀ r c, r < kFullSize → c < kFullSize →
         Z.of_nat r ∉ subspaceIndices m ∨ Z.of_nat c ∉ subspaceIndices m →
         dense_coeff full r c = Ok zero).
Proof.
  intros Hwf Hin.
  destruct (fullCovariance_spec m Hwf Hin) as (full & Hfull & Hshape & Hall).
  exists full. split; [done |].
  split; [apply Hshape |]. split; [apply Hshape |].
  unfold size in Hall. setoid_rewrite surviving_write_end in Hall.
  split.
  - intros k l a b Hk Hl Hklast Hllast.
    destruct (index_in_range m k a Hin Hk) as [Halt Haback].
    destruct (index_in_range m l b Hin Hl) as [Hblt Hbback].
    pose proof (lookup_lt_Some _ _ _ Hk) as Hklt.
    pose proof (lookup_lt_Some _ _ _ Hl) as Hllt.
    rewrite Hall, Haback, Hbback by done.
    rewrite (last_position_last _ _ _ k), (last_position_last _ _ _ l)
      by done.
    by rewrite local_covariance_read.
  - intros r c Hr Hc Hnot. rewrite Hall by done.
    destruct Hnot as [Hnot|Hnot]; rewrite (last_position_not_elem _ _ _ Hnot).
    + done.
    + by destruct (last_position _ _ (Z.of_nat r)).
Qed.

(** *** The expansions reject an index outside the full space *)

(** A loop whose body fails at one iteration, and runs before it, fails
    there. *)
Lemma for_range_abort {St} (I : nat → St → Prop)
    (body : nat → St → result St) (count : nat) (stop : nat) (f : failure) :
  ∀ (first : nat) (s : St),
    first ≤ stop < first + count →
    I first s →
    (∀ i t, first ≤ i < stop → I i t →
            ∃ t', body i t = Ok t' ∧ I (S i) t') →
    (∀ t, I stop t → body stop t = Err f) →
    for_range first count body s = Err f.
Proof.
  induction count as [|count IH]; intros first s Hstop Hs Hbefore Hat;
    [lia |].
  simpl. destruct (decide (first = stop)) as [->|Hne].
  - by rewrite Hat.
  - destruct (Hbefore first s) as (t & -> & Ht); [lia | done |]. simpl.
    apply IH; [lia | done | | done].
    intros i u Hi Hu. apply Hbefore; [lia | done].
Qed.

Lemma Forall_first_violation {A} (P : A → Prop) `{!∀ x, Decision (P x)}
    (l : list A) :
  ¬ Forall P l →
  ∃ i x, l !! i = Some x ∧ ¬ P x ∧ ∀ j y, j < i → l !! j = Some y → P y.
Proof.
  induction l as [|x l IH]; intros Hnot.
  - destruct Hnot. constructor.
  - destruct (decide (P x)) as [Hx|Hx].
    + destruct IH as (i & y & Hi & Hy & Hbefore).
      { intros Hl. apply Hnot. by constructor. }
      exists (S i), y. split; [done |]. split; [done |].
      intros [|j] z Hj Hz; simpl in Hz; [by injection Hz as <- |].
      apply (Hbefore j); [lia | done].
    + exists 0, x. split; [done |]. split; [done |]. intros j y Hj. lia.
Qed.

Lemma dense_set_out_of_range (M : Dense) (rows cols i j : nat) (x : Scalar) :
  dense_shape M rows cols →
  ¬ (i < rows ∧ j < cols) → rows * cols ≤ offset rows i j →
  dense_set M i j x = out_of_bounds.
Proof.
  intros (Hr & Hc & Hlen) Hout Hoff. unfold dense_set, store, out_of_bounds.
  rewrite Hr, Hc, Hlen.
  replace (bool_decide (i < rows) && bool_decide (j < cols)) with false.
  - unfold assert. destruct NDEBUG; simpl; [| done].
    by rewrite bool_decide_eq_false_2 by lia.
  - symmetry. apply andb_false_iff.
    destruct (decide (i < rows)); [right | left];
      apply bool_decide_eq_false; tauto.
Qed.

(** The first stored index that addresses no slot of the full space. *)
Lemma first_index_out_of_range (m : Measurement) :
  well_formed m → ¬ indices_in_range m →
  ∃ stop z, m_subspaceIndices m !! stop = Some z
    ∧ kFullSize ≤ Z.to_nat z
    ∧ ∀ j y, j < stop → m_subspaceIndices m !! j = Some y →
        Z.to_nat y < kFullSize.
Proof.
  intros (_ & Hsmall & _) Hout.
  apply Forall_first_violation in Hout as (stop & z & Hz & Hbad & Hbefore);
    [| apply _].
  exists stop, z. split; [done |]. split.
  - rewrite Forall_lookup in Hsmall. specialize (Hsmall stop z Hz).
    simpl in Hsmall. lia.
  - intros j y Hj Hy. specialize (Hbefore j y Hj Hy). simpl in Hbefore. lia.
Qed.

Lemma fullParameters_out_of_range (m : Measurement) :
  well_formed m → ¬ indices_in_range m →
  fullParameters m = out_of_bounds.
Proof.
  intros Hwf Hout.
  destruct (first_index_out_of_range m Hwf Hout)
    as (stop & z & Hz & Hbad & Hbefore).
  pose proof (lookup_lt_Some _ _ _ Hz) as Hstop.
  unfold fullParameters.
  apply (for_range_abort (λ _ res, dense_shape res kFullSize 1) _ _ stop).
  - unfold size. lia.
  - apply Zero_shape.
  - intros i res Hi Hshape.
    destruct (lookup_lt_is_Some_2 (m_subspaceIndices m) i) as [y Hy]; [lia |].
    rewrite (sv_at_Ok _ _ _ Hy). simpl mbind at 1.
    rewrite local_parameter_read by (done || unfold size; lia).
    simpl mbind at 1.
    destruct (dense_set_Ok res kFullSize 1 (Z.to_nat y) 0 (local_parameter m i))
      as (res' & -> & Hshape' & _); [done | | lia |].
    { apply (Hbefore i); [lia | done]. }
    by exists res'.
  - intros res Hshape.
    rewrite (sv_at_Ok _ _ _ Hz). simpl mbind at 1.
    rewrite local_parameter_read by done. simpl mbind at 1.
    apply (dense_set_out_of_range _ kFullSize 1); [done | lia |].
    unfold offset. lia.
Qed.

Lemma fullCovariance_out_of_range (m : Measurement) :
  well_formed m → ¬ indices_in_range m →
  fullCovariance m = out_of_bounds.
Proof.
  intros Hwf Hout.
  destruct (first_index_out_of_range m Hwf Hout)
    as (stop & z & Hz & Hbad & Hbefore).
  pose proof (lookup_lt_Some _ _ _ Hz) as Hstop.
  unfold fullCovariance.
  apply (for_range_abort (λ _ res, dense_shape res kFullSize kFullSize) _ _ 0).
  - unfold size. lia.
  - apply Zero_shape.
  - intros i res Hi. lia.
  - intros res Hshape.
    apply (for_range_abort (λ _ res, dense_shape res kFullSize kFullSize)
             _ _ stop).
    + unfold size. lia.
    + done.
    + intros j res' Hj Hshape'.
      destruct (lookup_lt_is_Some_2 (m_subspaceIndices m) 0) as [a Ha];
        [lia |].
      destruct (lookup_lt_is_Some_2 (m_subspaceIndices m) j) as [b Hb];
        [lia |].
      rewrite (sv_at_Ok _ _ _ Ha). simpl mbind at 1.
      rewrite (sv_at_Ok _ _ _ Hb). simpl mbind at 1.
      rewrite local_covariance_read by (done || unfold size; lia).
      simpl mbind at 1.
      destruct (dense_set_Ok res' kFullSize kFullSize (Z.to_nat a)
                  (Z.to_nat b) (local_covariance m 0 j))
        as (res'' & -> & Hshape'' & _); [done | | |].
      { apply (Hbefore 0); [lia | done]. }
      { apply (Hbefore j); [lia | done]. }
      by exists res''.
    + intros res' Hshape'.
      destruct (lookup_lt_is_Some_2 (m_subspaceIndices m) 0) as [a Ha];
        [lia |].
      rewrite (sv_at_Ok _ _ _ Ha). simpl mbind at 1.
      rewrite (sv_at_Ok _ _ _ Hz). simpl mbind at 1.
      rewrite local_covariance_read by (done || unfold size; lia).
      simpl mbind at 1.
      apply (dense_set_out_of_range _ kFullSize kFullSize); [done | lia |].
      unfold offset.
      pose proof (Nat.mul_le_mono_r _ _ kFullSize Hbad). lia.
Qed.

(** [fullParameters()] and [fullCovariance()] return exactly when every
    stored index addresses a slot of the full space. With an index outside
    it, both stop at the first write to it: at the assertion of the matrix
    when assertions are enabled, outside the matrix otherwise. *)
Theorem expansions_return_iff_indices_in_range (m : Measurement) :
  well_formed m →
  ((∃ full, fullParameters m = Ok full) ↔ indices_in_range m)
  ∧ ((∃ full, fullCovariance m = Ok full) ↔ indices_in_range m)
  ∧ (¬ indices_in_range m →
     fullParameters m
     = Err (if NDEBUG then UndefinedBehaviour else AssertionFailure)
     ∧ fullCovariance m
       = Err (if NDEBUG then UndefinedBehaviour else AssertionFailure)).
Proof.
  intros Hwf.
  assert (Decision (indices_in_range m)) as Hdec
    by (unfold indices_in_range; apply _).
  split; [| split].
  - split.
    + intros [full Hfull]. destruct Hdec as [Hin|Hout]; [done |].
      rewrite fullParameters_out_of_range in Hfull by done. done.
    + intros Hin.
      destruct (fullParameters_spec m Hwf Hin) as (full & Hfull & _).
      by exists full.
  - split.
    + intros [full Hfull]. destruct Hdec as [Hin|Hout]; [done |].
      rewrite fullCovariance_out_of_range in Hfull by done. done.
    + intros Hin.
      destruct (fullCovariance_spec m Hwf Hin) as (full & Hfull & _).
      by exists full.
  - intros Hout. split.
    + by apply fullParameters_out_of_range.
    + by apply fullCovariance_out_of_range.
Qed.

(** *** Writes through the views *)

#[local] Instance Buffer_eq_dec : EqDecision Buffer.
Proof. solve_decision. Defined.

Lemma map_set_inv (v : EigenMap) (m m' : Measurement) (i j : nat) (x : Scalar) :
  map_set v m i j x = Ok m' →
  offset (map_rows v) i j < length (buffer m (map_data v))
  ∧ m' = set_buffer m (map_data v)
           (<[offset (map_rows v) i j := x]> (buffer m (map_data v))).
Proof.
  unfold map_set, store. intros (data & Hstore & [= <-])%bind_Ok.
  apply bind_Ok in Hstore as (_ & _ & Hstore).
  case_bool_decide; [| done]. by injection Hstore as <-.
Qed.

Lemma set_buffer_fields (m : Measurement) (b : Buffer) (data : list Scalar) :
  m_source (set_buffer m b data) = m_source m
  ∧ m_subspaceIndices (set_buffer m b data) = m_subspaceIndices m.
Proof. by destruct b. Qed.

Lemma set_buffer_other (m : Measurement) (b b' : Buffer) (data : list Scalar) :
  b' ≠ b → buffer (set_buffer m b data) b' = buffer m b'.
Proof. by destruct b, b'. Qed.

Lemma set_buffer_twice (m : Measurement) (b : Buffer) (data data' : list Scalar) :
  set_buffer (set_buffer m b data) b data' = set_buffer m b data'.
Proof. by destruct b. Qed.

(** A write through a view changes the one slot it addresses: a read of
    another buffer, or of another slot of the same buffer, is as before. *)
Lemma map_set_other_coeff (v w : EigenMap) (m m' : Measurement)
    (i j i' j' : nat) (x : Scalar) :
  map_set v m i j x = Ok m' →
  map_data w ≠ map_data v
  ∨ offset (map_rows w) i' j' ≠ offset (map_rows v) i j →
  map_coeff w m' i' j' = map_coeff w m i' j'.
Proof.
  intros [_ ->]%map_set_inv Hother. unfold map_coeff.
  destruct (decide (map_data w = map_data v)) as [Heq|Hne].
  - destruct Hother as [?|Hoff]; [done |].
    rewrite Heq, buffer_set_buffer. unfold load.
    by rewrite list_lookup_insert_ne.
  - by rewrite set_buffer_other.
Qed.

(** A write to [covariance()(i, j)] of a measurement changes no other
    coefficient of the covariance, no parameter, and neither the indices nor
    the source link. *)
Theorem covariance_write_changes_one_coefficient (m m' : Measurement)
    (i j : nat) (x : Scalar) :
  i < size m →
  map_set (covariance m) m i j x = Ok m' →
  (∀ i' j', i' < size m → (i', j') ≠ (i, j) →
     map_coeff (covariance m') m' i' j' = map_coeff (covariance m) m i' j')
  ∧ (∀ k, map_coeff (parameters m') m' k 0 = map_coeff (parameters m) m k 0)
  ∧ subspaceIndices m' = subspaceIndices m
  ∧ sourceLink m' = sourceLink m.
Proof.
  intros Hi Hset. pose proof (map_set_indices _ _ _ _ _ _ Hset) as Hidx.
  assert (covariance m' = covariance m) as ->
    by (unfold covariance, size; by rewrite Hidx).
  assert (parameters m' = parameters m) as ->
    by (unfold parameters, size; by rewrite Hidx).
  repeat split.
  - intros i' j' Hi' Hne. eapply map_set_other_coeff; [exact Hset |].
    right. simpl. intros Heq. apply offset_inj in Heq as [-> ->]; done.
  - intros k. eapply map_set_other_coeff; [exact Hset |]. by left.
  - done.
  - apply map_set_inv in Hset as [_ ->]. apply set_buffer_fields.
Qed.

(** A write to [parameters()[i]] changes no other parameter, no coefficient
    of the covariance, and neither the indices nor the source link. *)
Theorem parameter_write_changes_one_coefficient (m m' : Measurement)
    (i : nat) (x : Scalar) :
  map_set (parameters m) m i 0 x = Ok m' →
  (∀ i', i' ≠ i →
     map_coeff (parameters m') m' i' 0 = map_coeff (parameters m) m i' 0)
  ∧ (∀ k l, map_coeff (covariance m') m' k l = map_coeff (covariance m) m k l)
  ∧ subspaceIndices m' = subspaceIndices m
  ∧ sourceLink m' = sourceLink m.
Proof.
  intros Hset. pose proof (map_set_indices _ _ _ _ _ _ Hset) as Hidx.
  assert (covariance m' = covariance m) as ->
    by (unfold covariance, size; by rewrite Hidx).
  assert (parameters m' = parameters m) as ->
    by (unfold parameters, size; by rewrite Hidx).
  repeat split.
  - intros i' Hne. eapply map_set_other_coeff; [exact Hset |].
    right. unfold offset. simpl. lia.
  - intros k l. eapply map_set_other_coeff; [exact Hset |]. by left.
  - done.
  - apply map_set_inv in Hset as [_ ->]. apply set_buffer_fields.
Qed.

Lemma well_formed_set_buffer (m : Measurement) (b : Buffer)
    (data : list Scalar) :
  well_formed m → length data = length (buffer m b) →
  well_formed (set_buffer m b data).
Proof.
  intros (Hcap & Hsmall & Hp & Hc) Hlen.
  destruct b; repeat split; simpl in *; congruence.
Qed.

Lemma covariance_write_Ok (m : Measurement) (i j : nat) (x : Scalar) :
  well_formed m → i < size m → j < size m →
  map_set (covariance m) m i j x
  = Ok (set_buffer m CovData (<[offset (size m) i j := x]> (m_cov m))).
Proof.
  intros (Hcap & _ & _ & Hlen) Hi Hj.
  rewrite map_set_Ok; [done | done | done |]. simpl.
  pose proof (offset_lt (size m) (size m) i j Hi Hj).
  pose proof (Nat.mul_le_mono _ _ _ _ Hcap Hcap). unfold size in *. lia.
Qed.

Lemma two_covariance_writes (m : Measurement) (i j i' j' : nat)
    (x y : Scalar) :
  well_formed m → i < size m → j < size m → i' < size m → j' < size m →
  mutate_all [SetCovariance None i j x; SetCovariance None i' j' y] m
  = Ok (set_buffer m CovData
          (<[offset (size m) i' j' := y]>
             (<[offset (size m) i j := x]> (m_cov m)))).
Proof.
  intros Hwf Hi Hj Hi' Hj'. cbn [mutate_all mutate].
  rewrite covariance_write_Ok by done.
  set (m1 := set_buffer m CovData (<[offset (size m) i j := x]> (m_cov m))).
  assert (well_formed m1) as Hwf1
    by (apply well_formed_set_buffer; [done | apply length_insert]).
  change (map_set (covariance m1) m1 i' j' y ≫= (λ m', Ok m') = Ok
            (set_buffer m1 CovData (<[offset (size m1) i' j' := y]> (m_cov m1)))).
  by rewrite covariance_write_Ok.
Qed.

(** Two writes through [covariance()] always succeed on coefficients of the
    local block; on different coefficients their order does not matter, and
    on the same coefficient the second replaces the first. *)
Theorem covariance_writes_compose (m : Measurement) (i j i' j' : nat)
    (x y : Scalar) :
  well_formed m → i < size m → j < size m → i' < size m → j' < size m →
  (∃ m', mutate_all [SetCovariance None i j x; SetCovariance None i' j' y] m
         = Ok m'
         ∧ map_coeff (covariance m') m' i' j' = Ok y)
  ∧ ((i, j) ≠ (i', j') →
     mutate_all [SetCovariance None i j x; SetCovariance None i' j' y] m
     = mutate_all [SetCovariance None i' j' y; SetCovariance None i j x] m)
  ∧ mutate_all [SetCovariance None i j x; SetCovariance None i j y] m
    = mutate_all [SetCovariance None i j y] m.
Proof.
  intros Hwf Hi Hj Hi' Hj'.
  pose proof Hwf as (Hcap & _ & _ & Hlen).
  assert (offset (size m) i' j' < length (m_cov m)) as Hoff.
  { pose proof (offset_lt (size m) (size m) i' j' Hi' Hj').
    pose proof (Nat.mul_le_mono _ _ _ _ Hcap Hcap). unfold size in *. lia. }
  split; [| split].
  - eexists. split; [by apply two_covariance_writes |].
    apply load_Ok; [done | done |]. simpl.
    apply list_lookup_insert_eq. by rewrite length_insert.
  - intros Hne. rewrite !two_covariance_writes by done. do 2 f_equal.
    apply list_insert_insert_ne.
    intros Heq. apply offset_inj in Heq as [-> ->]; done.
  - rewrite two_covariance_writes by done. simpl.
    rewrite covariance_write_Ok by done. simpl.
    by rewrite list_insert_insert_eq.
Qed.

(** *** Each expansion reads its own buffer *)

Lemma parameters_static_data (dim : nat) (m : Measurement) (v : EigenMap) :
  parameters_static dim m = Ok v → map_data v = ParamsData.
Proof.
  unfold parameters_static. by intros (_ & _ & [= <-])%bind_Ok.
Qed.

Lemma covariance_static_data (dim : nat) (m : Measurement) (v : EigenMap) :
  covariance_static dim m = Ok v → map_data v = CovData.
Proof.
  unfold covariance_static. by intros (_ & _ & [= <-])%bind_Ok.
Qed.

(** A write through a parameter view, statically or dynamically sized,
    leaves [fullCovariance()] as it was, and a write through a covariance
    view leaves [fullParameters()] as it was. *)
Theorem expansions_ignore_the_other_buffer (m m' : Measurement) :
  (∀ dim i x,
     mutate (SetParameter dim i x) m = Ok m' →
     fullCovariance m' = fullCovariance m)
  ∧ (∀ dim i j x,
       mutate (SetCovariance dim i j x) m = Ok m' →
       fullParameters m' = fullParameters m).
Proof.
  split.
  - intros [dim|] i x; simpl.
    + intros (v & Hv & [_ ->]%map_set_inv)%bind_Ok.
      by rewrite (parameters_static_data _ _ _ Hv).
    + by intros [_ ->]%map_set_inv.
  - intros [dim|] i j x; simpl.
    + intros (v & Hv & [_ ->]%map_set_inv)%bind_Ok.
      by rewrite (covariance_static_data _ _ _ Hv).
    + by intros [_ ->]%map_set_inv.
Qed.

(** *** The statically sized index array *)

(** [subspaceIndices<dim>()] instantiated at the size of the measurement
    returns the index list, whatever the array held before the copy; at any
    other size it stops at the assertion when assertions are enabled. *)
Theorem subspaceIndices_static_copies_all (dim : nat)
    (uninitialised : list Z) (m : Measurement) :
  length uninitialised = dim →
  (dim = size m →
   subspaceIndices_static dim uninitialised m = Ok (subspaceIndices m))
  ∧ (NDEBUG = false → dim ≠ size m →
     subspaceIndices_static dim uninitialised m = Err AssertionFailure).
Proof.
  intros Hlen. unfold subspaceIndices_static. split.
  - intros ->. rewrite bool_decide_eq_true_2, assert_true by done. simpl.
    rewrite std_copy_Ok by (unfold size in Hlen; lia).
    rewrite drop_ge by (unfold size in Hlen; lia). by rewrite app_nil_r.
  - intros Hdebug Hne. unfold assert.
    by rewrite Hdebug, bool_decide_eq_false_2.
Qed.

(** *** Sequences of writes *)

Lemma map_set_source (v : EigenMap) (m m' : Measurement) (i j : nat)
    (x : Scalar) :
  map_set v m i j x = Ok m' → m_source m' = m_source m.
Proof. intros [_ ->]%map_set_inv. apply set_buffer_fields. Qed.

Lemma write_keeps_identity (op : Mutation) (m m' : Measurement) :
  is_write op = true → mutate op m = Ok m' →
  m_subspaceIndices m' = m_subspaceIndices m ∧ m_source m' = m_source m.
Proof.
  destruct op as [[dim|] i x|[dim|] i j x|other]; simpl; [| | | | done];
    intros _.
  - intros (v & _ & Hset)%bind_Ok.
    split; [by eapply map_set_indices | by eapply map_set_source].
  - intros Hset.
    split; [by eapply map_set_indices | by eapply map_set_source].
  - intros (v & _ & Hset)%bind_Ok.
    split; [by eapply map_set_indices | by eapply map_set_source].
  - intros Hset.
    split; [by eapply map_set_indices | by eapply map_set_source].
Qed.

(** However many writes go through the views of a measurement, in whatever
    order and at whatever positions, a run that succeeds leaves the index
    list, the size and the source link as they were, and a well-formed
    measurement well formed. *)
Theorem writes_keep_indices_and_source (ops : list Mutation)
    (m m' : Measurement) :
  Forall (λ op, is_write op = true) ops →
  mutate_all ops m = Ok m' →
  subspaceIndices m' = subspaceIndices m
  ∧ size m' = size m
  ∧ sourceLink m' = sourceLink m
  ∧ (well_formed m → well_formed m').
Proof.
  intros Hwrites. revert m.
  induction Hwrites as [|op ops Hop _ IH]; intros m; simpl.
  - by intros [= <-].
  - intros (m1 & Hstep & Hrest)%bind_Ok.
    destruct (write_keeps_identity op m m1 Hop Hstep) as [Hidx Hsrc].
    destruct (IH m1 Hrest) as (Hidx' & Hsize' & Hsrc' & Hwf').
    unfold subspaceIndices, size, sourceLink in *.
    split; [congruence |]. split; [congruence |]. split; [congruence |].
    intros Hwf. apply Hwf'. eapply mutate_well_formed; [exact Hwf | | exact Hstep].
    intros other ->. done.
Qed.

End Further.

(** ** The further properties in the scenario *)

#[local] Existing Instance bound.
#[local] Existing Instance debug.

Lemma repeated_well_formed : well_formed repeated.
Proof.
  repeat split; simpl; try lia.
  repeat constructor; unfold SubspaceIndex_max; lia.
Defined.

Lemma repeated_in_range : indices_in_range repeated.
Proof. repeat constructor; simpl; lia. Defined.

Lemma stray_well_formed : well_formed stray.
Proof.
  repeat split; simpl; try lia.
  repeat constructor; unfold SubspaceIndex_max; lia.
Defined.

Lemma constructed_views_read_arguments_witness :
  sourceLink two_dim = (tt : @SourceLink bound)
  ∧ size two_dim = 2
  ∧ (∀ k, k < 2 →
       map_coeff (parameters two_dim) two_dim k 0 = Ok (mat_coeff values k 0))
  ∧ (∀ k l, k < 2 → l < 2 →
       map_coeff (covariance two_dim) two_dim k l = Ok (mat_coeff cov k l)).
Proof.
  apply (constructed_views_read_arguments (tt : @SourceLink bound) [0; 2]%Z values
           cov two_dim).
  vm_compute. reflexivity.
Defined.

Lemma indexOf_is_first_position_witness :
  ∃ k, indexOf repeated 2%Z = Ok k
       ∧ subspaceIndices repeated !! k = Some 2%Z
       ∧ ∀ k', k' < k → subspaceIndices repeated !! k' ≠ Some 2%Z.
Proof. apply (indexOf_is_first_position repeated 2%Z). reflexivity. Defined.

Lemma indexOf_inverts_subspaceIndices_witness :
  contains two_dim 2%Z = true ∧ indexOf two_dim 2%Z = Ok 1.
Proof.
  apply (indexOf_inverts_subspaceIndices two_dim 1 2%Z).
  - exact two_indices_NoDup.
  - reflexivity.
Defined.

Lemma fullParameters_last_occurrence_wins_witness :
  ∃ full, fullParameters repeated = Ok full
    ∧ dense_coeff full 2 0 = Ok (Qmake 3 1)
    ∧ dense_coeff full 0 0 = Ok (Qmake 2 1)
    ∧ dense_coeff full 1 0 = Ok (Qmake 0 1).
Proof.
  destruct (fullParameters_last_occurrence_wins repeated
              repeated_well_formed repeated_in_range)
    as (full & Hfull & _ & _ & Hlast & Hzero).
  exists full. split; [exact Hfull |]. split; [| split].
  - apply (Hlast 2 2%Z); [reflexivity |].
    intros [|[|[|k']]] Hk'; try lia; discriminate.
  - apply (Hlast 1 0%Z); [reflexivity |].
    intros [|[|[|k']]] Hk'; try lia; discriminate.
  - apply (Hzero 1); [simpl; lia |].
    intros Hin. repeat (apply elem_of_cons in Hin as [Hin|Hin]; [lia |]).
    by apply elem_of_nil in Hin.
Defined.

Lemma fullCovariance_last_occurrence_wins_witness :
  ∃ full, fullCovariance repeated = Ok full
    ∧ dense_coeff full 2 2 = Ok (Qmake 9 1)
    ∧ dense_coeff full 0 2 = Ok (Qmake 8 1).
Proof.
  destruct (fullCovariance_last_occurrence_wins repeated
              repeated_well_formed repeated_in_range)
    as (full & Hfull & _ & _ & Hlast & _).
  exists full. split; [exact Hfull |]. split.
  - apply (Hlast 2 2 2%Z 2%Z); try reflexivity;
      intros [|[|[|k']]] Hk'; try lia; discriminate.
  - apply (Hlast 1 2 0%Z 2%Z); try reflexivity;
      intros [|[|[|k']]] Hk'; try lia; discriminate.
Defined.

Lemma stray_not_in_range : ¬ indices_in_range stray.
Proof.
  intros Hall. apply Forall_cons in Hall as [_ Hall].
  apply Forall_cons in Hall as [Hseven _]. simpl in Hseven. lia.
Defined.

Lemma expansions_return_iff_indices_in_range_witness :
  fullParameters stray = Err AssertionFailure
  ∧ fullCovariance stray = Err AssertionFailure.
Proof.
  destruct (expansions_return_iff_indices_in_range stray stray_well_formed)
    as (_ & _ & Hout).
  exact (Hout stray_not_in_range).
Defined.

Lemma covariance_write_changes_one_coefficient_witness :
  ∃ m', map_set (covariance two_dim) two_dim 0 1 (Qmake 7 1) = Ok m'
    ∧ (∀ i' j', i' < size two_dim → (i', j') ≠ (0, 1) →
         map_coeff (covariance m') m' i' j'
         = map_coeff (covariance two_dim) two_dim i' j')
    ∧ (∀ k, map_coeff (parameters m') m' k 0
            = map_coeff (parameters two_dim) two_dim k 0)
    ∧ subspaceIndices m' = subspaceIndices two_dim
    ∧ sourceLink m' = sourceLink two_dim.
Proof.
  eexists. split; [vm_compute; reflexivity |].
  apply (covariance_write_changes_one_coefficient two_dim _ 0 1 (Qmake 7 1)).
  - unfold size. simpl. lia.
  - vm_compute. reflexivity.
Defined.

Lemma parameter_write_changes_one_coefficient_witness :
  ∃ m', map_set (parameters two_dim) two_dim 1 0 (Qmake 7 1) = Ok m'
    ∧ (∀ i', i' ≠ 1 →
         map_coeff (parameters m') m' i' 0
         = map_coeff (parameters two_dim) two_dim i' 0)
    ∧ (∀ k l, map_coeff (covariance m') m' k l
              = map_coeff (covariance two_dim) two_dim k l)
    ∧ subspaceIndices m' = subspaceIndices two_dim
    ∧ sourceLink m' = sourceLink two_dim.
Proof.
  eexists. split; [vm_compute; reflexivity |].
  apply (parameter_write_changes_one_coefficient two_dim _ 1 (Qmake 7 1)).
  vm_compute. reflexivity.
Defined.

Lemma covariance_writes_compose_witness :
  mutate_all [SetCovariance None 0 1 (Qmake 7 1);
              SetCovariance None 1 0 (Qmake 7 1)] two_dim
  = mutate_all [SetCovariance None 1 0 (Qmake 7 1);
                SetCovariance None 0 1 (Qmake 7 1)] two_dim.
Proof.
  destruct (covariance_writes_compose two_dim 0 1 1 0 (Qmake 7 1) (Qmake 7 1)
              two_dim_well_formed)
    as (_ & Hcommute & _); try (unfold size; simpl; lia).
  apply Hcommute. discriminate.
Defined.

Lemma subspaceIndices_static_copies_all_witness :
  subspaceIndices_static 2 [5; 9]%Z two_dim = Ok [0; 2]%Z.
Proof.
  destruct (subspaceIndices_static_copies_all 2 [5; 9]%Z two_dim eq_refl)
    as [Hsame _].
  exact (Hsame eq_refl).
Defined.

Lemma writes_keep_indices_and_source_witness :
  ∃ m', mutate_all [@SetParameter bound None 0 (Qmake 7 1);
                    @SetCovariance bound (Some 2) 1 1 (Qmake 7 1)] two_dim
        = Ok m'
    ∧ subspaceIndices m' = subspaceIndices two_dim
    ∧ size m' = size two_dim
    ∧ sourceLink m' = sourceLink two_dim
    ∧ (well_formed two_dim → well_formed m').
Proof.
  eexists. split; [vm_compute; reflexivity |].
  apply (writes_keep_indices_and_source (Inst := bound) (Bld := debug)
           [@SetParameter bound None 0 (Qmake 7 1);
            @SetCovariance bound (Some 2) 1 1 (Qmake 7 1)] two_dim).
  - repeat constructor.
  - vm_compute. reflexivity.
Defined.

Example three_columns_with_assertions :
  construct (Bld := debug) tt [0; 2]%Z three_columns cov
  = Err AssertionFailure.
Proof. reflexivity. Qed.

Example three_columns_without_assertions :
  construct (Bld := release) tt [0; 2]%Z three_columns cov
  = Ok first_column_kept.
Proof. vm_compute. reflexivity. Qed.

Example row_vector_with_one_index :
  construct (Bld := debug) tt [3]%Z row_values variance
  = Err AssertionFailure
  ∧ ∃ m, construct (Bld := release) tt [3]%Z row_values variance = Ok m
         ∧ map_coeff (Bld := release) (parameters m) m 0 0 = Ok (Qmake 4 1).
Proof. split; [reflexivity |]. eexists. split; vm_compute; reflexivity. Qed.

Lemma constructor_checks_columns_at_the_assignment_witness :
  construct (Bld := debug) tt [0; 2]%Z three_columns cov
  = Err AssertionFailure
  ∧ ∃ m, construct (Bld := release) tt [0; 2]%Z three_columns cov = Ok m
         ∧ size m = 2
         ∧ ∀ k, k < 2 →
             map_coeff (Bld := release) (parameters m) m k 0
             = Ok (mat_coeff three_columns k 0).
Proof.
  assert (1 ≤ length [0; 2]%Z ≤ kFullSize (Instantiation := bound)) as Hfit
    by (simpl; lia).
  split.
  - apply (constructor_checks_columns_at_the_assignment (Bld := debug)
             (tt : @SourceLink bound) [0; 2]%Z three_columns cov 3
             eq_refl eq_refl eq_refl eq_refl Hfit); [reflexivity | lia].
  - apply (constructor_checks_columns_at_the_assignment (Bld := release)
             (tt : @SourceLink bound) [0; 2]%Z three_columns cov 3
             eq_refl eq_refl eq_refl eq_refl Hfit); [reflexivity | lia].
Defined.
